(** * Greenhouse climate controller: plant model, smoothing, driver loop

    A shallow embedding of the Python sources [Process_Data.py],
    [Decision_Making.py] and [Main.py], and of the deterministic part of the
    generators of [Signal_Models.py] (what they draw at random is an
    argument).

    Numbers: the program computes with Python/NumPy floats; the development
    reads every arithmetic expression over the rationals [Q], the exact
    arithmetic the specification ("real") speaks about.  Equality of computed
    values is therefore [Qeq] ([==]) unless both sides are the very same
    expression.

    Failure: an exception raised by Python (IndexError, ZeroDivisionError, an
    error raised inside the fuzzy engine) is the [None] of the option monad;
    no function of the program catches an exception.

    The fuzzy engine itself ([skfuzzy]: [fuzz.trimf] and
    [ControlSystemSimulation.compute]) is a library the program calls; the
    controllers and the driver are parameterised by it, and module [Mamdani]
    gives the engine the specification describes. *)

From Stdlib Require Import ZArith QArith Qabs Qminmax Qround Lqa Lia List Sorted.
From stdpp Require Import base option list strings.

Local Open Scope Q_scope.

(* ===================================================================== *)
(** * Definitions *)
(* ===================================================================== *)

(** ** Python and NumPy primitives *)

Module Py.

(** [x < y] on numbers, as a boolean. *)
Definition Qlt_bool (x y : Q) : bool := negb (Qle_bool y x).

(** [l[i]]: a negative index counts from the end, an index out of range
    raises IndexError. *)
Definition index {A : Type} (l : list A) (i : Z) : option A :=
  let n := Z.of_nat (length l) in
  if (i <? 0)%Z
  then (if (n + i <? 0)%Z then None else l !! Z.to_nat (n + i))
  else l !! Z.to_nat i.

(** How a slice bound is brought into [0 .. len]. *)
Definition clamp (n i : Z) : Z :=
  if (i <? 0)%Z then Z.max 0 (n + i) else Z.min i n.

(** [l[start:stop]] (step 1). *)
Definition slice {A : Type} (l : list A) (start stop : Z) : list A :=
  let n := Z.of_nat (length l) in
  let s := clamp n start in
  let e := clamp n stop in
  take (Z.to_nat (e - s)) (drop (Z.to_nat s) l).

(** [sum(l)]: starts from 0 and adds from the left. *)
Definition sum (l : list Q) : Q := fold_left Qplus l 0.

(** [x / y], ZeroDivisionError when [y] is zero. *)
Definition div (x y : Q) : option Q :=
  if Qeq_bool y 0 then None else Some (x / y).

(** [l[i] = v] for [0 <= i]: IndexError out of range. *)
Definition set_item {A : Type} (l : list A) (i : nat) (v : A) : option (list A) :=
  if (i <? length l)%nat then Some (<[i := v]> l) else None.

(** [a + b] on one-dimensional arrays: element by element when the shapes
    agree, a one-element array is broadcast, any other pair of shapes is a
    ValueError. *)
Definition add (a b : list Q) : option (list Q) :=
  if (length a =? length b)%nat then Some (zip_with Qplus a b)
  else match a, b with
       | [x], _ => Some (map (Qplus x) b)
       | _, [y] => Some (map (fun x => x + y) a)
       | _, _ => None
       end.

(** [l[mask]] with a boolean mask: the elements under a [True]; IndexError
    when the mask has another length than the array. *)
Definition select {A : Type} (mask : list bool) (l : list A) : option (list A) :=
  if (length mask =? length l)%nat
  then Some (map snd (filter (fun p => fst p = true) (zip mask l)))
  else None.

(** [for i in range(n): body], threading the state, stopping at the first
    exception. *)
Fixpoint for_each {St : Type} (body : nat -> St -> option St) (idx : list nat) (s : St)
  : option St :=
  match idx with
  | [] => Some s
  | i :: rest => s' ← body i s; for_each body rest s'
  end.

Definition for_range {St : Type} (n : nat) (body : nat -> St -> option St) (s : St)
  : option St :=
  for_each body (seq 0 n) s.

(** [np.arange(start, stop, 1)] on integers. *)
Definition arange (start stop : Z) : list Q :=
  map inject_Z (seqZ start (stop - start)).

(** A dictionary read [d[key]] on an association list. *)
Fixpoint get {A : Type} (d : list (string * A)) (key : string) : option A :=
  match d with
  | [] => None
  | (k, v) :: rest => if String.eqb k key then Some v else get rest key
  end.

End Py.

(** ** Process_Data.py *)

Definition smooth_data (current_timestamp : Z) (data : list Q) (window_size : Z)
  : option Q :=
  let start_index := Z.max 0 (current_timestamp - window_size + 1) in
  let end_index := (current_timestamp + 1)%Z in
  Py.div (Py.sum (Py.slice data start_index end_index))
         (inject_Z (end_index - start_index)).

Definition update_temperature (time_stamp : Z) (temp_base modified_temp : list Q)
    (action_level_heater min_limit max_limit decay_rate action_factor : Q)
  : option Q :=
  current_temp_base ← Py.index temp_base time_stamp;
  previous_modified_temp ← Py.index modified_temp (time_stamp - 1);
  let intensity := action_level_heater / 10 in
  Some
    (if Py.Qlt_bool 0 intensity then
       previous_modified_temp
       + (max_limit - previous_modified_temp) * intensity * action_factor
     else if Py.Qlt_bool intensity 0 then
       previous_modified_temp
       - (previous_modified_temp - min_limit) * Qabs intensity * action_factor
     else if Py.Qlt_bool current_temp_base previous_modified_temp then
       Qmax current_temp_base (previous_modified_temp - decay_rate)
     else
       Qmin current_temp_base (previous_modified_temp + decay_rate)).

Definition update_humidity (time_stamp : Z) (humidity_base modified_humidity : list Q)
    (action_level_dehumidifier action_level_ventilation
     min_limit decay_rate action_factor : Q)
  : option Q :=
  current_humidity_base ← Py.index humidity_base time_stamp;
  previous_modified_humidity ← Py.index modified_humidity (time_stamp - 1);
  let intensity := (action_level_dehumidifier + action_level_ventilation) / 10 in
  Some
    (if Py.Qlt_bool 0 intensity then
       previous_modified_humidity
       - (previous_modified_humidity - min_limit) * intensity * action_factor
     else
       previous_modified_humidity
       + (current_humidity_base - previous_modified_humidity) * decay_rate).

Definition update_moisture (time_stamp : Z) (moisture_base modified_moisture : list Q)
    (action_level_ventilation min_limit decay_rate action_factor : Q)
  : option Q :=
  current_moisture_base ← Py.index moisture_base time_stamp;
  previous_modified_moisture ← Py.index modified_moisture (time_stamp - 1);
  let intensity := action_level_ventilation / 10 in
  Some
    (if Py.Qlt_bool 0 intensity then
       previous_modified_moisture
       - (previous_modified_moisture - min_limit) * intensity * action_factor
     else
       previous_modified_moisture
       + (current_moisture_base - previous_modified_moisture) * decay_rate).

(** ** Decision_Making.py: the configuration of the three controllers *)

(** A fuzzy variable ([ctrl.Antecedent] or [ctrl.Consequent]): its label, its
    discretised universe and its labelled triangular sets, each given by the
    breakpoints [(a, b, c)] handed to [fuzz.trimf]. *)
Record FuzzyVariable := {
  label : string;
  universe : list Q;
  terms : list (string * (Q * Q * Q))
}.

(** The left side of a rule: a term [variable[name]] or a conjunction
    [t1 & t2]. *)
Inductive TermExpr :=
| Term (variable : FuzzyVariable) (name : string)
| And (l r : TermExpr).

(** [ctrl.Rule(antecedent, consequent)]. *)
Record Rule := {
  antecedent : TermExpr;
  consequent : FuzzyVariable * string
}.

(** [ctrl.ControlSystem(rules)]. *)
Definition ControlSystem := list Rule.

(** What the program uses of a simulation: after the inputs are set and
    [compute()] has run, the crisp value stored under an output label, or an
    exception. *)
Definition Engine := ControlSystem -> list (string * Q) -> string -> option Q.

Module Dehumidifier.

Definition humidity : FuzzyVariable :=
  {| label := "humidity"; universe := Py.arange 0 101;
     terms := [("low", (0, 0, 50)); ("medium", (45, 60, 75)); ("high", (70, 100, 100))] |}.

Definition dehumidifier : FuzzyVariable :=
  {| label := "dehumidifier"; universe := Py.arange (-10) 11;
     terms := [("off", (-10, -10, 1)); ("low", (0, 1.5, 3)); ("high", (2, 10, 10))] |}.

Definition rule1 := {| antecedent := Term humidity "high"; consequent := (dehumidifier, "high") |}.
Definition rule2 := {| antecedent := Term humidity "medium"; consequent := (dehumidifier, "low") |}.
Definition rule3 := {| antecedent := Term humidity "low"; consequent := (dehumidifier, "off") |}.

Definition dehumidifier_ctrl : ControlSystem := [rule1; rule2; rule3].

End Dehumidifier.

Module Ventilation.

Definition humidity : FuzzyVariable :=
  {| label := "humidity"; universe := Py.arange 0 101;
     terms := [("low", (0, 0, 60)); ("medium", (55, 65, 75)); ("high", (70, 100, 100))] |}.

Definition moisture : FuzzyVariable :=
  {| label := "moisture"; universe := Py.arange 0 101;
     terms := [("low", (0, 0, 15)); ("medium", (10, 15, 20)); ("high", (15, 100, 100))] |}.

Definition ventilation : FuzzyVariable :=
  {| label := "ventilation"; universe := Py.arange (-10) 11;
     terms := [("off", (-10, -10, 1)); ("low", (0, 1.5, 3)); ("high", (2, 10, 10))] |}.

Definition rule1 :=
  {| antecedent := And (Term humidity "high") (Term moisture "high");
     consequent := (ventilation, "high") |}.
Definition rule2 :=
  {| antecedent := And (Term humidity "high") (Term moisture "medium");
     consequent := (ventilation, "high") |}.
Definition rule3 :=
  {| antecedent := And (Term humidity "high") (Term moisture "low");
     consequent := (ventilation, "high") |}.
Definition rule4 :=
  {| antecedent := And (Term humidity "medium") (Term moisture "high");
     consequent := (ventilation, "high") |}.
Definition rule6 :=
  {| antecedent := And (Term humidity "low") (Term moisture "high");
     consequent := (ventilation, "high") |}.
Definition rule5 :=
  {| antecedent := And (Term humidity "medium") (Term moisture "medium");
     consequent := (ventilation, "low") |}.
Definition rule7 :=
  {| antecedent := And (Term humidity "medium") (Term moisture "low");
     consequent := (ventilation, "low") |}.
Definition rule8 :=
  {| antecedent := And (Term humidity "low") (Term moisture "medium");
     consequent := (ventilation, "low") |}.
Definition rule9 :=
  {| antecedent := And (Term humidity "low") (Term moisture "low");
     consequent := (ventilation, "off") |}.

Definition ventilation_ctrl : ControlSystem :=
  [rule1; rule2; rule3; rule4; rule5; rule6; rule7; rule8; rule9].

End Ventilation.

Module Heating.

Definition temperature : FuzzyVariable :=
  {| label := "temperature"; universe := Py.arange 0 31;
     terms := [("cold", (0, 0, 19)); ("medium", (18, 20, 22)); ("hot", (21, 30, 30))] |}.

Definition heating : FuzzyVariable :=
  {| label := "heating"; universe := Py.arange (-10) 11;
     terms := [("cool", (-10, -10, 0)); ("off", (-5, 0, 5)); ("on", (0, 10, 10))] |}.

Definition rule1 := {| antecedent := Term temperature "hot"; consequent := (heating, "cool") |}.
Definition rule2 := {| antecedent := Term temperature "medium"; consequent := (heating, "off") |}.
Definition rule3 := {| antecedent := Term temperature "cold"; consequent := (heating, "on") |}.

Definition heating_ctrl : ControlSystem := [rule1; rule2; rule3].

End Heating.

(** The three controller functions.  Each reads its components of
    [sensdata], sets them as the simulation's inputs, computes, and returns
    the output stored under the consequent's label. *)

Definition dehumidifier_controller (engine : Engine) (sensdata : list Q) : option Q :=
  h ← Py.index sensdata 1;
  engine Dehumidifier.dehumidifier_ctrl [("humidity", h)] "dehumidifier".

Definition ventilation_controller (engine : Engine) (sensdata : list Q) : option Q :=
  h ← Py.index sensdata 1;
  m ← Py.index sensdata 2;
  engine Ventilation.ventilation_ctrl [("humidity", h); ("moisture", m)] "ventilation".

Definition heating_controller (engine : Engine) (sensdata : list Q) : option Q :=
  t ← Py.index sensdata 0;
  engine Heating.heating_ctrl [("temperature", t)] "heating".

(** ** The engine of the specification *)

Module Mamdani.

(** Modelled from the spec: the membership degree of a triangular set, which
    the program obtains from scikit-fuzzy's [fuzz.trimf] (not part of the
    repository).  Sections 3 and 4.1: linear ramp-up on [a,b], linear
    ramp-down on [b,c], zero outside, peak 1 at [b]; a degenerate side has no
    ramp.  Divisions are checked ([Py.div]) so that a division error would
    show as [None]. *)
Definition degree (abc : Q * Q * Q) (x : Q) : option Q :=
  let '(a, b, c) := abc in
  if Qeq_bool x b then Some 1
  else if Py.Qlt_bool a x && Py.Qlt_bool x b then Py.div (x - a) (b - a)
  else if Py.Qlt_bool b x && Py.Qlt_bool x c then Py.div (c - x) (c - b)
  else Some 0.

(** Modelled from the spec: rule firing (section 4.2, step 2).  The strength
    of a clause is the degree of the reading of its variable in its set, the
    strength of a conjunction is the minimum. *)
Fixpoint firing_strength (inputs : list (string * Q)) (e : TermExpr) : option Q :=
  match e with
  | Term v name =>
      x ← Py.get inputs (label v);
      abc ← Py.get (terms v) name;
      degree abc x
  | And l r =>
      sl ← firing_strength inputs l;
      sr ← firing_strength inputs r;
      Some (Qmin sl sr)
  end.

(** Modelled from the spec: the clipped consequent of one rule at the grid
    point [x], [min(firing_strength(rule), consequent_mf(rule)(x))]. *)
Definition clipped (inputs : list (string * Q)) (r : Rule) (x : Q) : option Q :=
  s ← firing_strength inputs (antecedent r);
  abc ← Py.get (terms (fst (consequent r))) (snd (consequent r));
  d ← degree abc x;
  Some (Qmin s d).

(** Modelled from the spec: aggregation (step 3), the maximum over all rules
    of the clipped consequents. *)
Fixpoint aggregated (inputs : list (string * Q)) (rules : list Rule) (x : Q)
  : option Q :=
  match rules with
  | [] => Some 0
  | r :: rest =>
      c ← clipped inputs r x;
      m ← aggregated inputs rest x;
      Some (Qmax c m)
  end.

(** Modelled from the spec: the two sums of the centroid over the grid,
    [Σ x · aggregated(x)] and [Σ aggregated(x)]. *)
Fixpoint centroid_sums (inputs : list (string * Q)) (rules : list Rule) (grid : list Q)
  : option (Q * Q) :=
  match grid with
  | [] => Some (0, 0)
  | x :: rest =>
      m ← aggregated inputs rules x;
      '(num, den) ← centroid_sums inputs rules rest;
      Some (x * m + num, m + den)
  end.

(** Modelled from the spec: defuzzification (step 4).  The output variable is
    the consequent variable carrying the asked label; a zero denominator has
    no crisp value. *)
Definition evaluate : Engine := fun rules inputs output =>
  out ← fst <$> find (fun v => String.eqb (label (fst v)) output) (consequent <$> rules);
  '(num, den) ← centroid_sums inputs rules (universe out);
  Py.div num den.

End Mamdani.

(** ** Main.py *)

(** Configuration parameters. *)
Definition temperature_min_limit : Q := 5.
Definition temperature_max_limit : Q := 25.
Definition temperature_decay_rate : Q := 0.05.
Definition temperature_action_factor : Q := 0.05.
Definition humidity_min_limit : Q := 0.
Definition humidity_decay_rate : Q := 0.05.
Definition humidity_action_factor : Q := 0.03.
Definition moisture_min_limit : Q := 0.
Definition moisture_decay_rate : Q := 0.05.
Definition moisture_action_factor : Q := 0.05.

(** The series the signal generators hand to the loop (they are random; the
    loop only reads them). *)
Record Signals := {
  time : list Q;
  temperature_base : list Q;
  temperature_noise : list Q;
  humidity_base : list Q;
  humidity_noise : list Q;
  moisture_base : list Q;
  moisture_noise : list Q
}.

(** The six arrays the loop writes. *)
Record Series := {
  temperature_updated : list Q;
  humidity_updated : list Q;
  moisture_updated : list Q;
  dehumidifier_action : list Q;
  ventilation_action : list Q;
  heating_action : list Q
}.

(** [np.copy] of the base series and [np.zeros_like(time)]. *)
Definition initial (sig : Signals) : Series :=
  {| temperature_updated := temperature_base sig;
     humidity_updated := humidity_base sig;
     moisture_updated := moisture_base sig;
     dehumidifier_action := replicate (length (time sig)) 0;
     ventilation_action := replicate (length (time sig)) 0;
     heating_action := replicate (length (time sig)) 0 |}.

(** Lines 80-91: for [time_stamp > 0] the three plant updates, each written
    into its array at [i]. *)
Definition plant_update (sig : Signals) (i : nat) (s : Series) : option Series :=
  let time_stamp := Z.of_nat i in
  if (0 <? time_stamp)%Z then
    h ← Py.index (heating_action s) (time_stamp - 1);
    t' ← update_temperature time_stamp (temperature_base sig) (temperature_updated s) h
           temperature_min_limit temperature_max_limit
           temperature_decay_rate temperature_action_factor;
    tu ← Py.set_item (temperature_updated s) i t';
    d ← Py.index (dehumidifier_action s) (time_stamp - 1);
    v ← Py.index (ventilation_action s) (time_stamp - 1);
    h' ← update_humidity time_stamp (humidity_base sig) (humidity_updated s) d v
           humidity_min_limit humidity_decay_rate humidity_action_factor;
    hu ← Py.set_item (humidity_updated s) i h';
    v' ← Py.index (ventilation_action s) (time_stamp - 1);
    m' ← update_moisture time_stamp (moisture_base sig) (moisture_updated s) v'
           moisture_min_limit moisture_decay_rate moisture_action_factor;
    mu ← Py.set_item (moisture_updated s) i m';
    Some {| temperature_updated := tu; humidity_updated := hu; moisture_updated := mu;
            dehumidifier_action := dehumidifier_action s;
            ventilation_action := ventilation_action s;
            heating_action := heating_action s |}
  else Some s.

(** Lines 93-104: noise added to the whole arrays, the reading at [i]
    smoothed, the sensor array built. *)
Definition read_sensors (sig : Signals) (i : nat) (s : Series) : option (list Q) :=
  let time_stamp := Z.of_nat i in
  noisy_temperature ← Py.add (temperature_updated s) (temperature_noise sig);
  noisy_humidity ← Py.add (humidity_updated s) (humidity_noise sig);
  noisy_moisture ← Py.add (moisture_updated s) (moisture_noise sig);
  temperature ← smooth_data time_stamp noisy_temperature 5;
  humidity ← smooth_data time_stamp noisy_humidity 5;
  moisture ← smooth_data time_stamp noisy_moisture 5;
  Some [temperature; humidity; moisture].

(** Lines 106-115: the three controllers, or the previous actions held. *)
Definition decide_actions (engine : Engine) (i : nat) (sensdata : list Q) (s : Series)
  : option Series :=
  if (Z.of_nat i mod 1 =? 0)%Z then
    d ← dehumidifier_controller engine sensdata;
    da ← Py.set_item (dehumidifier_action s) i d;
    v ← ventilation_controller engine sensdata;
    va ← Py.set_item (ventilation_action s) i v;
    h ← heating_controller engine sensdata;
    ha ← Py.set_item (heating_action s) i h;
    Some {| temperature_updated := temperature_updated s;
            humidity_updated := humidity_updated s;
            moisture_updated := moisture_updated s;
            dehumidifier_action := da; ventilation_action := va; heating_action := ha |}
  else
    d ← Py.index (dehumidifier_action s) (Z.of_nat i - 1);
    da ← Py.set_item (dehumidifier_action s) i d;
    v ← Py.index (ventilation_action s) (Z.of_nat i - 1);
    va ← Py.set_item (ventilation_action s) i v;
    h ← Py.index (heating_action s) (Z.of_nat i - 1);
    ha ← Py.set_item (heating_action s) i h;
    Some {| temperature_updated := temperature_updated s;
            humidity_updated := humidity_updated s;
            moisture_updated := moisture_updated s;
            dehumidifier_action := da; ventilation_action := va; heating_action := ha |}.

(** One pass of the loop body (lines 77-115). *)
Definition loop_body (engine : Engine) (sig : Signals) (i : nat) (s : Series)
  : option Series :=
  s1 ← plant_update sig i s;
  sensdata ← read_sensors sig i s1;
  decide_actions engine i sensdata s1.

(** The loop [for i in range(len(time))] from the initial arrays. *)
Definition simulation (engine : Engine) (sig : Signals) : option Series :=
  Py.for_range (length (time sig)) (loop_body engine sig) (initial sig).

(** What the end of [main] prints: the three rise times and the three
    stabilities. *)
Record Report := {
  rise_time_temperature : Q;
  rise_time_humidity : Q;
  rise_time_moisture : Q;
  stability_temperature : Q;
  stability_humidity : Q;
  stability_moisture : Q
}.

(** The comfort-band masks of lines 132-134. *)
Definition in_band_temperature (x : Q) : bool := Qle_bool x 22 && Qle_bool 18 x.
Definition in_band_humidity (x : Q) : bool := Qle_bool x 60 && Qle_bool 40 x.
Definition in_band_moisture (x : Q) : bool := Qle_bool x 20.

(** [len(rise) / len(time[time >= rise[0]])]. *)
Definition stability (time rise : list Q) : option Q :=
  first ← Py.index rise 0;
  later ← Py.select (map (fun t => Qle_bool first t) time) time;
  Py.div (inject_Z (Z.of_nat (length rise))) (inject_Z (Z.of_nat (length later))).

(** Lines 131-148: rise times and stabilities, then the report. *)
Definition analysis (time : list Q) (s : Series) : option Report :=
  rise_temperature ← Py.select (map in_band_temperature (temperature_updated s)) time;
  rise_humidity ← Py.select (map in_band_humidity (humidity_updated s)) time;
  rise_moisture ← Py.select (map in_band_moisture (moisture_updated s)) time;
  st ← stability time rise_temperature;
  sh ← stability time rise_humidity;
  sm ← stability time rise_moisture;
  rt ← Py.index rise_temperature 0;
  rh ← Py.index rise_humidity 0;
  rm ← Py.index rise_moisture 0;
  Some {| rise_time_temperature := rt; rise_time_humidity := rh; rise_time_moisture := rm;
          stability_temperature := st; stability_humidity := sh; stability_moisture := sm |}.

(** [main]: the loop, then the analysis (plotting writes files and is left
    out). *)
Definition main (engine : Engine) (sig : Signals) : option Report :=
  s ← simulation engine sig;
  analysis (time sig) s.

(** ** Reference notions of the specification *)

(** The sum of a list, and its arithmetic mean. *)
Definition Qsum (l : list Q) : Q := foldr Qplus 0 l.

Definition mean (l : list Q) : Q := Qsum l / inject_Z (Z.of_nat (length l)).

(** The [min (t+1) 5] most recent samples of [data] ending at [t]. *)
Definition trailing_window (t : nat) (data : list Q) : list Q :=
  let w := Nat.min (t + 1) 5 in
  take w (drop (t + 1 - w) data).

(** The next value of each plant variable, read off the update functions
    with the constants of [Main.py]. *)
Definition next_temperature (prev b h : Q) : Q :=
  default 0 (update_temperature 1 [b; b] [prev] h
               temperature_min_limit temperature_max_limit
               temperature_decay_rate temperature_action_factor).

Definition next_humidity (prev b d v : Q) : Q :=
  default 0 (update_humidity 1 [b; b] [prev] d v
               humidity_min_limit humidity_decay_rate humidity_action_factor).

Definition next_moisture (prev b v : Q) : Q :=
  default 0 (update_moisture 1 [b; b] [prev] v
               moisture_min_limit moisture_decay_rate moisture_action_factor).

(** The one-step lag at index [t]: the three updated values at [t] are the
    next values computed from the updated values at [t-1], the base values at
    [t] and the actions recorded at [t-1]. *)
Definition lagged (sig : Signals) (s : Series) (t : nat) : Prop :=
  exists pT pH pM bT bH bM d v h,
    temperature_updated s !! (t - 1)%nat = Some pT /\
    humidity_updated s !! (t - 1)%nat = Some pH /\
    moisture_updated s !! (t - 1)%nat = Some pM /\
    temperature_base sig !! t = Some bT /\
    humidity_base sig !! t = Some bH /\
    moisture_base sig !! t = Some bM /\
    dehumidifier_action s !! (t - 1)%nat = Some d /\
    ventilation_action s !! (t - 1)%nat = Some v /\
    heating_action s !! (t - 1)%nat = Some h /\
    temperature_updated s !! t = Some (next_temperature pT bT h) /\
    humidity_updated s !! t = Some (next_humidity pH bH d v) /\
    moisture_updated s !! t = Some (next_moisture pM bM v).

(** Signals as the generators produce them: every series has one value per
    time point. *)
Definition well_formed (sig : Signals) : Prop :=
  length (temperature_base sig) = length (time sig) /\
  length (temperature_noise sig) = length (time sig) /\
  length (humidity_base sig) = length (time sig) /\
  length (humidity_noise sig) = length (time sig) /\
  length (moisture_base sig) = length (time sig) /\
  length (moisture_noise sig) = length (time sig).

(** The six arrays of the loop all have [n] entries. *)
Definition sized (n : nat) (s : Series) : Prop :=
  length (temperature_updated s) = n /\
  length (humidity_updated s) = n /\
  length (moisture_updated s) = n /\
  length (dehumidifier_action s) = n /\
  length (ventilation_action s) = n /\
  length (heating_action s) = n.

(** The breakpoints of a triangular set are ordered. *)
Definition ordered (abc : Q * Q * Q) : Prop :=
  let '(a, b, c) := abc in a <= b /\ b <= c.

(** Every fuzzy variable the three controllers declare. *)
Definition declared_variables : list FuzzyVariable :=
  [Dehumidifier.humidity; Dehumidifier.dehumidifier;
   Ventilation.humidity; Ventilation.moisture; Ventilation.ventilation;
   Heating.temperature; Heating.heating].

(** The [min (t+1) w] most recent samples of [data] ending at [t], for any
    window size [w]. *)
Definition trailing (w t : nat) (data : list Q) : list Q :=
  let n := Nat.min (t + 1) w in
  take n (drop (t + 1 - n) data).

(** The action (or the exception) the three controllers return for the
    sensor readings of pass [t], read from the arrays of a state. *)
Definition controlled (engine : Engine) (sig : Signals) (s : Series) (t : nat) : Prop :=
  exists sensdata,
    read_sensors sig t s = Some sensdata /\
    dehumidifier_action s !! t = dehumidifier_controller engine sensdata /\
    ventilation_action s !! t = ventilation_controller engine sensdata /\
    heating_action s !! t = heating_controller engine sensdata.

(** The time of the first sample of [xs] that satisfies [f], with [ts] the
    times of the samples. *)
Fixpoint first_hit (f : Q -> bool) (xs ts : list Q) : option Q :=
  match xs, ts with
  | x :: xs', t :: ts' => if f x then Some t else first_hit f xs' ts'
  | _, _ => None
  end.

(** Three samples in which every variable enters its comfort band. *)
Definition entering_bands : Series :=
  {| temperature_updated := [15; 19; 23]; humidity_updated := [70; 61; 55];
     moisture_updated := [25; 20; 18]; dehumidifier_action := [0; 0; 0];
     ventilation_action := [0; 0; 0]; heating_action := [0; 0; 0] |}.

(** ** Signal_Models.py *)

Module Np.

(** [np.arange(start, stop, step)] on numbers: [ceil((stop - start) / step)]
    points [start + i * step] (none when that count is not positive); a zero
    step is an error. *)
Definition arange (start stop step : Q) : option (list Q) :=
  if Qeq_bool step 0 then None
  else
    let n := Z.to_nat (Qceiling ((stop - start) / step)) in
    Some (map (fun i => start + inject_Z (Z.of_nat i) * step) (seq 0 n)).

(** The truth value of a number in [if x:]. *)
Definition truthy (x : Q) : bool := negb (Qeq_bool x 0).

End Np.


(** One pass of the loop of [generate_rain_vector]; [u] is the number drawn
    by [np.random.rand()] in this pass (each pass draws exactly once). *)
Definition rain_step (rain_probability intensity u : Q) (i : nat)
    (st : list Q * bool) : option (list Q * bool) :=
  let '(rain_vector, is_raining) := st in
  if is_raining then
    rain_vector ← Py.set_item rain_vector i intensity;
    Some (rain_vector, if Py.Qlt_bool rain_probability u then false else is_raining)
  else
    if Py.Qlt_bool u rain_probability then
      rain_vector ← Py.set_item rain_vector i intensity;
      Some (rain_vector, true)
    else Some (rain_vector, is_raining).

(** [generate_rain_vector]; [rand i] is the number drawn in pass [i]. *)
Definition generate_rain_vector (rand : nat -> Q) (time : list Q)
    (rain_probability intensity : Q) : option (list Q) :=
  st ← Py.for_range (length time)
         (fun i => rain_step rain_probability intensity (rand i) i)
         (replicate (length time) 0, false);
  Some (fst st).

(** One pass of the loop that accumulates the effect of rain (the same loop
    in [simulate_humidity] and [simulate_moisture]). *)
Definition rain_effect_step (base rain : list Q) (rain_impact drying_speed : Q)
    (i : nat) (cumulative : list Q) : option (list Q) :=
  r ← Py.index rain (Z.of_nat i);
  if Np.truthy r then
    prev ← Py.index cumulative (Z.of_nat i - 1);
    Py.set_item cumulative i (prev + rain_impact)
  else
    b ← Py.index base (Z.of_nat i);
    prev ← Py.index cumulative (Z.of_nat i - 1);
    Py.set_item cumulative i (Qmax b (prev - drying_speed)).

(** [simulate_moisture]; [noise] is the array drawn by
    [np.random.normal(0, noise_level, size=moisture_base.shape)]. *)
Definition simulate_moisture (noise : list Q) (time rain : list Q)
    (base_moisture rain_impact drying_speed : Q)
  : option (list Q * list Q * list Q) :=
  let moisture_base := replicate (length time) base_moisture in
  cumulative_moisture ←
    Py.for_each (rain_effect_step moisture_base rain rain_impact drying_speed)
                (seq 1 (length time - 1)) moisture_base;
  moisture_noisy ← Py.add cumulative_moisture noise;
  Some (moisture_base, noise, moisture_noisy).

(** Whether it is raining when pass [i] of [generate_rain_vector] starts,
    and whether pass [i] writes the intensity. *)
Fixpoint raining (rand : nat -> Q) (p : Q) (i : nat) : bool :=
  match i with
  | O => false
  | S j => if raining rand p j then negb (Py.Qlt_bool p (rand j))
           else Py.Qlt_bool (rand j) p
  end.

Definition wet (rand : nat -> Q) (p : Q) (i : nat) : bool :=
  raining rand p i || Py.Qlt_bool (rand i) p.

(** ** Well-formedness of the controller configurations *)

(** The clauses [(variable label, set name)] of a rule's left side. *)
Fixpoint clauses (e : TermExpr) : list (string * string) :=
  match e with
  | Term v name => [(label v, name)]
  | And l r => clauses l ++ clauses r
  end.

(** The set names a variable declares. *)
Definition names (v : FuzzyVariable) : list string := map fst (terms v).

(** Every set a rule names is declared by the variable it is read from. *)
Fixpoint declared (e : TermExpr) : Prop :=
  match e with
  | Term v name => In name (names v)
  | And l r => declared l /\ declared r
  end.

Definition rule_declared (r : Rule) : Prop :=
  declared (antecedent r) /\ In (snd (consequent r)) (names (fst (consequent r))).

(** The rules of a control system whose left side consists of the given
    clauses. *)
Definition rules_for (cs : ControlSystem) (cl : list (string * string)) : list Rule :=
  filter (fun r => clauses (antecedent r) = cl) cs.

(** Consecutive sets overlap: each set starts before the previous one
    ends. *)
Fixpoint overlapping (ts : list (string * (Q * Q * Q))) : Prop :=
  match ts with
  | (_, (_, _, c)) :: rest =>
      match rest with
      | (_, (a, _, _)) :: _ => a < c /\ overlapping rest
      | [] => True
      end
  | [] => True
  end.

(** The first set starts at the low end of the universe or before, the last
    one ends at the high end or after. *)
Definition reaches_ends (v : FuzzyVariable) : Prop :=
  match head (terms v), last (terms v), head (universe v), last (universe v) with
  | Some (_, (a, _, _)), Some (_, (_, _, c)), Some lo, Some hi => a <= lo /\ hi <= c
  | _, _, _, _ => False
  end.

(** The input variables and the rule bases of the three controllers. *)
Definition declared_inputs : list FuzzyVariable :=
  [Dehumidifier.humidity; Ventilation.humidity; Ventilation.moisture;
   Heating.temperature].

Definition declared_rules : list Rule :=
  Dehumidifier.dehumidifier_ctrl ++ Ventilation.ventilation_ctrl ++ Heating.heating_ctrl.

(** An engine that answers 0 to every reading (used to run the loop without
    the fuzzy library). *)
Definition idle : Engine := fun _ _ _ => Some 0.

(** Inputs used to run the definitions on concrete data. *)

(** An engine with its result put in lowest terms (the same number). *)
Definition reduced (e : Engine) : Engine := fun rules inputs output =>
  Qred <$> e rules inputs output.

(** Three time steps of two minutes, with a little noise. *)
Definition three_steps : Signals :=
  {| time := [0; 1 # 30; 2 # 30];
     temperature_base := [15; 15; 15]; temperature_noise := [0; 1; 0];
     humidity_base := [70; 70; 71]; humidity_noise := [0; 0; 1];
     moisture_base := [25; 25; 25]; moisture_noise := [0; 0; 0] |}.

(* ===================================================================== *)
(** * Theorems *)
(* ===================================================================== *)

(** ** Comparisons and indexing *)

Lemma Qlt_bool_true (x y : Q) : Py.Qlt_bool x y = true <-> x < y.
Proof.
  unfold Py.Qlt_bool. rewrite negb_true_iff, <- not_true_iff_false, Qle_bool_iff.
  split; [apply Qnot_le_lt | apply Qlt_not_le].
Qed.

Lemma Qlt_bool_false (x y : Q) : Py.Qlt_bool x y = false <-> y <= x.
Proof.
  unfold Py.Qlt_bool. rewrite negb_false_iff. apply Qle_bool_iff.
Qed.

(** Closed comparisons of rationals, by computation. *)
Ltac decide_Q := unfold Qle, Qlt; simpl; lia.

Ltac case_lt x y :=
  let H := fresh "Hlt" in
  destruct (Py.Qlt_bool x y) eqn:H;
  [apply Qlt_bool_true in H | apply Qlt_bool_false in H].

Lemma div_nonzero (x y : Q) : ~ y == 0 -> Py.div x y = Some (x / y).
Proof.
  intros Hy. unfold Py.div.
  destruct (Qeq_bool y 0) eqn:E; [apply Qeq_bool_iff in E; contradiction | reflexivity].
Qed.

Lemma index_nonneg {A : Type} (l : list A) (i : Z) :
  (0 <= i)%Z -> Py.index l i = l !! Z.to_nat i.
Proof.
  intros Hi. unfold Py.index.
  destruct (i <? 0)%Z eqn:E; [apply Z.ltb_lt in E; lia | reflexivity].
Qed.

Lemma index_of_nat {A : Type} (l : list A) (i : nat) :
  Py.index l (Z.of_nat i) = l !! i.
Proof. rewrite index_nonneg by lia. now rewrite Nat2Z.id. Qed.

Lemma index_pred {A : Type} (l : list A) (i : nat) :
  (0 < i)%nat -> Py.index l (Z.of_nat i - 1) = l !! (i - 1)%nat.
Proof.
  intros Hi. rewrite index_nonneg by lia. f_equal. lia.
Qed.

(** ** The plant model (Process_Data.py) *)

(** C3.  For a time step [t > 0] with base value [b = temp_base[t]] and
    previous value [prev = modified_temp[t-1]], [update_temperature] returns a
    value [r] such that, with [intensity = h / 10]:
    a positive intensity gives [prev + (max_limit - prev) * intensity * action_factor];
    a negative one gives [prev - (prev - min_limit) * |intensity| * action_factor];
    a zero intensity steps by [decay_rate] toward [b] (down when [prev] is
    above [b], up otherwise) and stops at [b] when the step would pass it, so
    the result never lies beyond [b]. *)
Theorem update_temperature_law
    (t : Z) (temp_base modified_temp : list Q)
    (h min_limit max_limit decay_rate action_factor b prev : Q) :
  (0 < t)%Z ->
  Py.index temp_base t = Some b ->
  Py.index modified_temp (t - 1) = Some prev ->
  exists r,
    update_temperature t temp_base modified_temp h
      min_limit max_limit decay_rate action_factor = Some r /\
    (0 < h / 10 -> r = prev + (max_limit - prev) * (h / 10) * action_factor) /\
    (h / 10 < 0 -> r = prev - (prev - min_limit) * Qabs (h / 10) * action_factor) /\
    (h / 10 == 0 ->
       (b < prev ->
          b <= r /\
          (b <= prev - decay_rate -> r == prev - decay_rate) /\
          (prev - decay_rate <= b -> r == b)) /\
       (prev <= b ->
          r <= b /\
          (prev + decay_rate <= b -> r == prev + decay_rate) /\
          (b <= prev + decay_rate -> r == b))).
Proof.
  intros Ht Hb Hp. unfold update_temperature. rewrite Hb, Hp. cbn.
  eexists; split; [reflexivity |].
  case_lt 0 (h / 10).
  - repeat split; intros; try reflexivity; lra.
  - case_lt (h / 10) 0.
    + repeat split; intros; try reflexivity; lra.
    + split; [lra |]. split; [lra |]. intros _.
      case_lt b prev.
      * split; [| intros; lra]. intros _.
        split; [apply Q.le_max_l |].
        split; intros Hd.
        -- apply Q.max_r; exact Hd.
        -- apply Q.max_l; exact Hd.
      * split; [intros; lra |]. intros _.
        split; [apply Q.le_min_l |].
        split; intros Hd.
        -- apply Q.min_r; exact Hd.
        -- apply Q.min_l; exact Hd.
Qed.

Lemma update_temperature_law_witness :
  exists r,
    update_temperature 1 [15; 16] [15; 0] 0 5 25 0.05 0.05 = Some r /\
    r == 15.05.
Proof.
  destruct (update_temperature_law 1 [15; 16] [15; 0] 0 5 25 0.05 0.05 16 15)
    as (r & Hr & _ & _ & Hz); [lia | reflexivity | reflexivity |].
  exists r. split; [exact Hr |].
  destruct Hz as [_ Hup]; [reflexivity |].
  destruct Hup as (_ & Hstep & _); [decide_Q |].
  rewrite Hstep; [reflexivity | decide_Q].
Defined.

(** C4.  For a time step [t > 0], [update_humidity] with the combined
    intensity [(d + v) / 10] returns
    [prev - (prev - min_limit) * intensity * action_factor] when the intensity
    is positive (there is no branch toward a maximum) and
    [prev + (b - prev) * decay_rate] when it is zero or negative;
    [update_moisture] obeys the same law with the intensity [v / 10]. *)
Theorem update_humidity_moisture_law
    (t : Z) (base modified : list Q)
    (d v min_limit decay_rate action_factor b prev : Q) :
  (0 < t)%Z ->
  Py.index base t = Some b ->
  Py.index modified (t - 1) = Some prev ->
  (exists r,
     update_humidity t base modified d v min_limit decay_rate action_factor = Some r /\
     (0 < (d + v) / 10 ->
        r = prev - (prev - min_limit) * ((d + v) / 10) * action_factor) /\
     ((d + v) / 10 <= 0 -> r = prev + (b - prev) * decay_rate)) /\
  (exists r,
     update_moisture t base modified v min_limit decay_rate action_factor = Some r /\
     (0 < v / 10 -> r = prev - (prev - min_limit) * (v / 10) * action_factor) /\
     (v / 10 <= 0 -> r = prev + (b - prev) * decay_rate)).
Proof.
  intros Ht Hb Hp. unfold update_humidity, update_moisture. rewrite Hb, Hp. cbn.
  split; eexists; (split; [reflexivity |]).
  - case_lt 0 ((d + v) / 10); split; intros; try reflexivity; lra.
  - case_lt 0 (v / 10); split; intros; try reflexivity; lra.
Qed.

Lemma update_humidity_moisture_law_witness :
  (exists r, update_humidity 1 [70; 72] [70; 0] 1.5 6.5 0 0.05 0.03 = Some r /\
             r = 70 - (70 - 0) * ((1.5 + 6.5) / 10) * 0.03) /\
  (exists r, update_moisture 1 [70; 72] [70; 0] 0 0 0.05 0.03 = Some r /\
             r = 70 + (72 - 70) * 0.05).
Proof.
  destruct (update_humidity_moisture_law 1 [70; 72] [70; 0] 1.5 6.5 0 0.05 0.03 72 70)
    as [(r & Hr & Hpos & _) _]; [lia | reflexivity | reflexivity |].
  destruct (update_humidity_moisture_law 1 [70; 72] [70; 0] 0 0 0 0.05 0.03 72 70)
    as [_ (r' & Hr' & _ & Hneg)]; [lia | reflexivity | reflexivity |].
  split.
  - exists r. split; [exact Hr | apply Hpos; reflexivity].
  - exists r'. split; [exact Hr' | apply Hneg; decide_Q].
Defined.

(** ** Smoothing (Process_Data.py) *)

Lemma sum_from (l : list Q) (a : Q) : fold_left Qplus l a == a + Qsum l.
Proof.
  revert a. induction l as [| x l IH]; intros a.
  - cbn. lra.
  - change (fold_left Qplus l (a + x) == a + (x + Qsum l)).
    rewrite IH. lra.
Qed.

Lemma sum_Qsum (l : list Q) : Py.sum l == Qsum l.
Proof. unfold Py.sum. rewrite sum_from. lra. Qed.

Lemma slice_trailing (t : nat) (data : list Q) :
  (t < length data)%nat ->
  Py.slice data (Z.max 0 (Z.of_nat t - 5 + 1)) (Z.of_nat t + 1) = trailing_window t data.
Proof.
  intros Ht. unfold Py.slice, Py.clamp, trailing_window.
  destruct (Z.max 0 (Z.of_nat t - 5 + 1) <? 0)%Z eqn:E1; [apply Z.ltb_lt in E1; lia |].
  destruct (Z.of_nat t + 1 <? 0)%Z eqn:E2; [apply Z.ltb_lt in E2; lia |].
  f_equal; [| f_equal]; lia.
Qed.

Lemma smooth_data_window (t : nat) (data : list Q) :
  (t < length data)%nat ->
  smooth_data (Z.of_nat t) data 5
    = Some (Py.sum (trailing_window t data)
            / inject_Z (Z.of_nat (Nat.min (t + 1) 5))).
Proof.
  intros Ht. unfold smooth_data. rewrite slice_trailing by exact Ht.
  replace (Z.of_nat t + 1 - Z.max 0 (Z.of_nat t - 5 + 1))%Z
    with (Z.of_nat (Nat.min (t + 1) 5)) by lia.
  apply div_nonzero. unfold Qeq. cbn. lia.
Qed.

(** C8.  For a time step [t] of a series [data], [smooth_data] returns the
    arithmetic mean of the trailing window of [min (t+1) 5] samples ending at
    [t]: the window holds exactly the samples [t+1-w .. t], which are the
    first [t+1] samples while [t < 4] and the last five from [t = 4] on. *)
Theorem smooth_data_trailing_average (t : nat) (data : list Q) :
  (t < length data)%nat ->
  let w := Nat.min (t + 1) 5 in
  length (trailing_window t data) = w /\
  (forall k, (k < w)%nat -> trailing_window t data !! k = data !! (t + 1 - w + k)%nat) /\
  ((t < 4)%nat -> w = (t + 1)%nat /\ trailing_window t data = take (t + 1) data) /\
  ((4 <= t)%nat -> w = 5%nat /\ trailing_window t data = take 5 (drop (t - 4) data)) /\
  exists v, smooth_data (Z.of_nat t) data 5 = Some v /\
            v == mean (trailing_window t data).
Proof.
  intros Ht w.
  assert (Hlen : length (trailing_window t data) = w).
  { unfold trailing_window. fold w. rewrite length_take, length_drop. lia. }
  split; [exact Hlen |].
  split.
  { intros k Hk. unfold trailing_window. fold w.
    rewrite lookup_take_lt by exact Hk. now rewrite lookup_drop. }
  split.
  { intros H4. assert (Hw : w = (t + 1)%nat) by (unfold w; lia).
    split; [exact Hw |]. unfold trailing_window. fold w. rewrite Hw.
    now replace (t + 1 - (t + 1))%nat with 0%nat by lia. }
  split.
  { intros H4. assert (Hw : w = 5%nat) by (unfold w; lia).
    split; [exact Hw |]. unfold trailing_window. fold w. rewrite Hw.
    now replace (t + 1 - 5)%nat with (t - 4)%nat by lia. }
  rewrite smooth_data_window by exact Ht.
  eexists. split; [reflexivity |].
  unfold mean. rewrite Hlen, sum_Qsum. reflexivity.
Qed.

Lemma smooth_data_trailing_average_witness :
  exists v, smooth_data 5 [1; 2; 3; 4; 5; 6; 7] 5 = Some v /\
            v == mean [2; 3; 4; 5; 6].
Proof.
  destruct (smooth_data_trailing_average 5 [1; 2; 3; 4; 5; 6; 7])
    as (_ & _ & _ & _ & v & Hv & Hm); [cbn; lia |].
  exists v. split; [exact Hv | exact Hm].
Defined.

(** ** Triangular membership degrees *)

Lemma ratio_bounds (n d : Q) : 0 < d -> 0 <= n -> n <= d -> 0 <= n / d /\ n / d <= 1.
Proof.
  intros Hd Hn Hnd. split.
  - apply Qle_shift_div_l; [exact Hd | lra].
  - apply Qle_shift_div_r; [exact Hd | lra].
Qed.

Lemma ratio_mono (n m d : Q) : 0 < d -> n <= m -> n / d <= m / d.
Proof.
  intros Hd Hnm. apply Qle_shift_div_l; [exact Hd |].
  assert (E : n / d * d == n) by (field; lra). lra.
Qed.

(** The four branches of [degree], as propositions. *)
Lemma degree_cases (a b c x : Q) :
  (x == b /\ Mamdani.degree (a, b, c) x = Some 1) \/
  (~ x == b /\ a < x /\ x < b /\
     Mamdani.degree (a, b, c) x = Some ((x - a) / (b - a))) \/
  (~ x == b /\ (x <= a \/ b <= x) /\ b < x /\ x < c /\
     Mamdani.degree (a, b, c) x = Some ((c - x) / (c - b))) \/
  (~ x == b /\ (x <= a \/ b <= x) /\ (x <= b \/ c <= x) /\
     Mamdani.degree (a, b, c) x = Some 0).
Proof.
  unfold Mamdani.degree.
  destruct (Qeq_bool x b) eqn:E.
  { left. apply Qeq_bool_iff in E. now split. }
  apply Qeq_bool_neq in E. right.
  case_lt a x; case_lt x b; cbn [andb].
  - left. rewrite div_nonzero by lra. tauto.
  - right. case_lt b x; case_lt x c; cbn [andb].
    + left. rewrite div_nonzero by lra. tauto.
    + right. tauto.
    + right. tauto.
    + right. tauto.
  - right. case_lt b x; case_lt x c; cbn [andb].
    + left. rewrite div_nonzero by lra. tauto.
    + right. tauto.
    + right. tauto.
    + right. tauto.
  - right. case_lt b x; case_lt x c; cbn [andb].
    + left. rewrite div_nonzero by lra. tauto.
    + right. tauto.
    + right. tauto.
    + right. tauto.
Qed.

(** [degree] never fails. *)
Lemma degree_total (abc : Q * Q * Q) (x : Q) : exists d, Mamdani.degree abc x = Some d.
Proof.
  destruct abc as [[a b] c].
  destruct (degree_cases a b c x) as [H | [H | [H | H]]];
    eexists; apply H.
Qed.

(** On ordered breakpoints a degree is linear on each side of the peak. *)
Lemma degree_shape (a b c x d : Q) :
  a <= b -> b <= c ->
  Mamdani.degree (a, b, c) x = Some d ->
  0 <= d /\ d <= 1 /\
  (x < a \/ c < x -> d == 0) /\
  (a <= x -> x <= b -> d * (b - a) == x - a) /\
  (b <= x -> x <= c -> d * (c - b) == c - x).
Proof.
  intros Hab Hbc Hd.
  destruct (degree_cases a b c x) as [H | [H | [H | H]]].
  - destruct H as [Hx E]. rewrite E in Hd. injection Hd as <-.
    repeat split; intros; try lra.
  - destruct H as (Hx & H1 & H2 & E). rewrite E in Hd. injection Hd as <-.
    destruct (ratio_bounds (x - a) (b - a)) as [L U]; try lra.
    split; [exact L |]. split; [exact U |].
    split; [intros; lra |].
    split; [intros; field; lra | intros; lra].
  - destruct H as (Hx & _ & H1 & H2 & E). rewrite E in Hd. injection Hd as <-.
    destruct (ratio_bounds (c - x) (c - b)) as [L U]; try lra.
    split; [exact L |]. split; [exact U |].
    split; [intros; lra |].
    split; [intros; lra | intros; field; lra].
  - destruct H as (Hx & H1 & H2 & E). rewrite E in Hd. injection Hd as <-.
    repeat split; intros; try lra.
Qed.

(** Every triangular set declared in [Decision_Making.py] has ordered
    breakpoints, so the properties below apply to each of them. *)
Lemma declared_terms_ordered :
  Forall (fun v => Forall (fun t => ordered (snd t)) (terms v)) declared_variables.
Proof.
  repeat constructor; cbn; decide_Q.
Qed.

(** C6.  For ordered breakpoints [a <= b <= c] the triangular degree is
    defined at every [x] (no division error, also when [a = b] or [b = c]),
    lies in [0,1], is 0 outside [a,c], is 0 at [a] unless [a = b], 1 at [b],
    0 at [c] unless [b = c], does not decrease on [a,b] and does not increase
    on [b,c]; when [a = b] only the falling ramp on [b,c] remains, when
    [b = c] only the rising ramp on [a,b]. *)
Theorem degree_triangular (a b c : Q) :
  a <= b -> b <= c ->
  (forall x, exists d, Mamdani.degree (a, b, c) x = Some d /\ 0 <= d /\ d <= 1) /\
  (forall x, x < a \/ c < x -> Mamdani.degree (a, b, c) x = Some 0) /\
  (~ a == b -> Mamdani.degree (a, b, c) a = Some 0) /\
  Mamdani.degree (a, b, c) b = Some 1 /\
  (~ b == c -> Mamdani.degree (a, b, c) c = Some 0) /\
  (forall x y dx dy, a <= x -> x <= y -> y <= b ->
     Mamdani.degree (a, b, c) x = Some dx -> Mamdani.degree (a, b, c) y = Some dy ->
     dx <= dy) /\
  (forall x y dx dy, b <= x -> x <= y -> y <= c ->
     Mamdani.degree (a, b, c) x = Some dx -> Mamdani.degree (a, b, c) y = Some dy ->
     dy <= dx) /\
  (a == b -> forall x d, Mamdani.degree (a, b, c) x = Some d ->
     (x < b -> d == 0) /\ (b <= x -> x <= c -> d * (c - b) == c - x)) /\
  (b == c -> forall x d, Mamdani.degree (a, b, c) x = Some d ->
     (a <= x -> x <= b -> d * (b - a) == x - a) /\ (b < x -> d == 0)).
Proof.
  intros Hab Hbc.
  split.
  { intros x. destruct (degree_total (a, b, c) x) as [d Hd].
    exists d. split; [exact Hd |].
    destruct (degree_shape a b c x d Hab Hbc Hd) as (L & U & _). now split. }
  split.
  { intros x Hx.
    destruct (degree_cases a b c x) as [H | [H | [H | H]]]; try (exfalso; lra).
    apply H. }
  split.
  { intros Hne.
    destruct (degree_cases a b c a) as [H | [H | [H | H]]]; try (exfalso; lra).
    apply H. }
  split.
  { unfold Mamdani.degree. now rewrite Qeq_bool_refl. }
  split.
  { intros Hne.
    destruct (degree_cases a b c c) as [H | [H | [H | H]]]; try (exfalso; lra).
    apply H. }
  split.
  { intros x y dx dy Hax Hxy Hyb Hx Hy.
    destruct (degree_shape a b c x dx Hab Hbc Hx) as (Lx & Ux & _ & Rx & _).
    destruct (degree_shape a b c y dy Hab Hbc Hy) as (Ly & Uy & _ & Ry & _).
    destruct (degree_cases a b c y) as [H | [H | [H | H]]].
    - destruct H as [_ E]. rewrite E in Hy. injection Hy as <-. exact Ux.
    - destruct H as (_ & H1 & H2 & E). rewrite E in Hy. injection Hy as <-.
      destruct (degree_cases a b c x) as [G | [G | [G | G]]]; try (exfalso; lra).
      + destruct G as (_ & _ & _ & G). rewrite G in Hx. injection Hx as <-.
        apply ratio_mono; lra.
      + destruct G as (_ & _ & _ & G). rewrite G in Hx. injection Hx as <-.
        exact Ly.
    - exfalso. lra.
    - destruct H as (Hne & H1 & H2 & E).
      destruct (degree_cases a b c x) as [G | [G | [G | G]]]; try (exfalso; lra).
      destruct G as (_ & _ & _ & G). rewrite G in Hx. injection Hx as <-.
      exact Ly. }
  split.
  { intros x y dx dy Hbx Hxy Hyc Hx Hy.
    destruct (degree_shape a b c x dx Hab Hbc Hx) as (Lx & Ux & _ & _ & Rx).
    destruct (degree_shape a b c y dy Hab Hbc Hy) as (Ly & Uy & _ & _ & Ry).
    destruct (degree_cases a b c x) as [H | [H | [H | H]]].
    - destruct H as [_ E]. rewrite E in Hx. injection Hx as <-. exact Uy.
    - exfalso. lra.
    - destruct H as (_ & _ & H1 & H2 & E). rewrite E in Hx. injection Hx as <-.
      destruct (degree_cases a b c y) as [G | [G | [G | G]]]; try (exfalso; lra).
      + destruct G as (_ & _ & _ & _ & G). rewrite G in Hy. injection Hy as <-.
        apply ratio_mono; lra.
      + destruct G as (_ & _ & _ & G). rewrite G in Hy. injection Hy as <-.
        exact Lx.
    - destruct H as (Hne & H1 & H2 & E).
      destruct (degree_cases a b c y) as [G | [G | [G | G]]]; try (exfalso; lra).
      destruct G as (_ & _ & _ & G). rewrite G in Hy. injection Hy as <-.
      exact Lx. }
  split.
  { intros Eab x d Hd.
    destruct (degree_shape a b c x d Hab Hbc Hd) as (_ & _ & Z0 & _ & R).
    split; [intros; apply Z0; lra | exact R]. }
  { intros Ebc x d Hd.
    destruct (degree_shape a b c x d Hab Hbc Hd) as (_ & _ & Z0 & R & _).
    split; [exact R | intros; apply Z0; lra]. }
Qed.

Lemma degree_triangular_witness :
  Mamdani.degree (0, 1.5, 3) 1.5 = Some 1 /\
  Mamdani.degree (70, 100, 100) 100 = Some 1 /\
  Mamdani.degree (0, 1.5, 3) 4 = Some 0.
Proof.
  destruct (degree_triangular 0 1.5 3) as (_ & Hout & _ & Hb & _);
    [decide_Q | decide_Q |].
  destruct (degree_triangular 70 100 100) as (_ & _ & _ & Hb' & _);
    [decide_Q | decide_Q |].
  split; [exact Hb |]. split; [exact Hb' |].
  apply Hout. right. reflexivity.
Defined.

(** ** The controllers (Decision_Making.py) *)

(** C10.  Whatever the engine, two sensor arrays that agree at index 1 get
    the same result from [dehumidifier_controller]; two that agree at index 0
    get the same result from [heating_controller]; two that agree at indices
    1 and 2 get the same result from [ventilation_controller]. *)
Theorem controllers_read_only_their_inputs (engine : Engine) (s1 s2 : list Q) :
  (Py.index s1 1 = Py.index s2 1 ->
   dehumidifier_controller engine s1 = dehumidifier_controller engine s2) /\
  (Py.index s1 0 = Py.index s2 0 ->
   heating_controller engine s1 = heating_controller engine s2) /\
  (Py.index s1 1 = Py.index s2 1 -> Py.index s1 2 = Py.index s2 2 ->
   ventilation_controller engine s1 = ventilation_controller engine s2).
Proof.
  unfold dehumidifier_controller, heating_controller, ventilation_controller.
  split; [| split].
  - intros ->. reflexivity.
  - intros ->. reflexivity.
  - intros -> ->. reflexivity.
Qed.

Lemma controllers_read_only_their_inputs_witness :
  dehumidifier_controller Mamdani.evaluate [15; 90; 25]
    = dehumidifier_controller Mamdani.evaluate [28; 90; 3] /\
  heating_controller Mamdani.evaluate [15; 90; 25]
    = heating_controller Mamdani.evaluate [15; 40; 3] /\
  ventilation_controller Mamdani.evaluate [15; 90; 25]
    = ventilation_controller Mamdani.evaluate [28; 90; 25].
Proof.
  destruct (controllers_read_only_their_inputs Mamdani.evaluate [15; 90; 25] [28; 90; 3])
    as (Hd & _ & _).
  destruct (controllers_read_only_their_inputs Mamdani.evaluate [15; 90; 25] [15; 40; 3])
    as (_ & Hh & _).
  destruct (controllers_read_only_their_inputs Mamdani.evaluate [15; 90; 25] [28; 90; 25])
    as (_ & _ & Hv).
  split; [apply Hd; reflexivity |].
  split; [apply Hh; reflexivity |].
  apply Hv; reflexivity.
Defined.

(** ** The driver loop (Main.py) *)

Lemma set_item_Some {A : Type} (l l' : list A) (i : nat) (v : A) :
  Py.set_item l i v = Some l' <-> (i < length l)%nat /\ l' = <[i := v]> l.
Proof.
  unfold Py.set_item. destruct (i <? length l)%nat eqn:E.
  - apply Nat.ltb_lt in E. split.
    + intros [= <-]. now split.
    + intros [_ ->]. reflexivity.
  - apply Nat.ltb_ge in E. split; [discriminate | intros [? _]; lia].
Qed.

(** A loop invariant is carried through [for_each] over a range. *)
Lemma for_each_invariant {St : Type} (Inv : nat -> St -> Prop)
    (body : nat -> St -> option St) :
  (forall i s s', body i s = Some s' -> Inv i s -> Inv (S i) s') ->
  forall n k s0 s,
    Py.for_each body (seq k n) s0 = Some s -> Inv k s0 -> Inv (k + n)%nat s.
Proof.
  intros Hstep. induction n as [| n IH]; intros k s0 s Hrun Hinv.
  - cbn in Hrun. injection Hrun as <-. now rewrite Nat.add_0_r.
  - cbn in Hrun. apply bind_Some in Hrun as (s1 & Hbody & Hrest).
    replace (k + S n)%nat with (S k + n)%nat by lia.
    eapply IH; [exact Hrest |]. eapply Hstep; eassumption.
Qed.

(** What the plant update of pass [i] leaves behind. *)
Lemma plant_update_spec (sig : Signals) (i : nat) (s s1 : Series) :
  plant_update sig i s = Some s1 ->
  dehumidifier_action s1 = dehumidifier_action s /\
  ventilation_action s1 = ventilation_action s /\
  heating_action s1 = heating_action s /\
  (i = 0%nat -> s1 = s) /\
  ((0 < i)%nat ->
   exists pT pH pM bT bH bM d v h,
     temperature_updated s !! (i - 1)%nat = Some pT /\
     humidity_updated s !! (i - 1)%nat = Some pH /\
     moisture_updated s !! (i - 1)%nat = Some pM /\
     temperature_base sig !! i = Some bT /\
     humidity_base sig !! i = Some bH /\
     moisture_base sig !! i = Some bM /\
     dehumidifier_action s !! (i - 1)%nat = Some d /\
     ventilation_action s !! (i - 1)%nat = Some v /\
     heating_action s !! (i - 1)%nat = Some h /\
     (i < length (temperature_updated s))%nat /\
     (i < length (humidity_updated s))%nat /\
     (i < length (moisture_updated s))%nat /\
     temperature_updated s1 = <[i := next_temperature pT bT h]> (temperature_updated s) /\
     humidity_updated s1 = <[i := next_humidity pH bH d v]> (humidity_updated s) /\
     moisture_updated s1 = <[i := next_moisture pM bM v]> (moisture_updated s)).
Proof.
  unfold plant_update. intros H.
  destruct (0 <? Z.of_nat i)%Z eqn:Hi.
  - apply Z.ltb_lt in Hi. assert (Hpos : (0 < i)%nat) by lia.
    apply bind_Some in H as (h & Eh & H).
    apply bind_Some in H as (t' & Et & H).
    apply bind_Some in H as (tu & Etu & H).
    apply bind_Some in H as (d & Ed & H).
    apply bind_Some in H as (v & Ev & H).
    apply bind_Some in H as (h' & Eh' & H).
    apply bind_Some in H as (hu & Ehu & H).
    apply bind_Some in H as (v' & Ev' & H).
    apply bind_Some in H as (m' & Em & H).
    apply bind_Some in H as (mu & Emu & H).
    injection H as <-. cbn.
    do 3 (split; [reflexivity |]).
    split; [intros; lia |]. intros _.
    rewrite index_pred in Eh, Ed, Ev, Ev' by exact Hpos.
    assert (v' = v) as -> by congruence.
    unfold update_temperature in Et. unfold update_humidity in Eh'.
    unfold update_moisture in Em.
    apply bind_Some in Et as (bT & EbT & Et).
    apply bind_Some in Et as (pT & EpT & Et).
    apply bind_Some in Eh' as (bH & EbH & Eh').
    apply bind_Some in Eh' as (pH & EpH & Eh').
    apply bind_Some in Em as (bM & EbM & Em).
    apply bind_Some in Em as (pM & EpM & Em).
    rewrite index_of_nat in EbT, EbH, EbM.
    rewrite index_pred in EpT, EpH, EpM by exact Hpos.
    apply set_item_Some in Etu as [Lt ->].
    apply set_item_Some in Ehu as [Lh ->].
    apply set_item_Some in Emu as [Lm ->].
    injection Et as <-. injection Eh' as <-. injection Em as <-.
    exists pT, pH, pM, bT, bH, bM, d, v, h.
    repeat (split; [assumption |]).
    repeat split; reflexivity.
  - apply Z.ltb_ge in Hi. injection H as <-.
    do 3 (split; [reflexivity |]).
    split; [reflexivity | intros; lia].
Qed.

(** What the control part of pass [i] leaves behind. *)
Lemma decide_actions_spec (engine : Engine) (i : nat) (sensdata : list Q)
    (s1 s' : Series) :
  decide_actions engine i sensdata s1 = Some s' ->
  temperature_updated s' = temperature_updated s1 /\
  humidity_updated s' = humidity_updated s1 /\
  moisture_updated s' = moisture_updated s1 /\
  dehumidifier_controller engine sensdata
    = Some (default 0 (dehumidifier_action s' !! i)) /\
  ventilation_controller engine sensdata
    = Some (default 0 (ventilation_action s' !! i)) /\
  heating_controller engine sensdata
    = Some (default 0 (heating_action s' !! i)) /\
  exists d v h,
    (i < length (dehumidifier_action s1))%nat /\
    (i < length (ventilation_action s1))%nat /\
    (i < length (heating_action s1))%nat /\
    dehumidifier_action s' = <[i := d]> (dehumidifier_action s1) /\
    ventilation_action s' = <[i := v]> (ventilation_action s1) /\
    heating_action s' = <[i := h]> (heating_action s1).
Proof.
  unfold decide_actions. rewrite Z.mod_1_r. cbn [Z.eqb].
  intros H.
  apply bind_Some in H as (d & Ed & H).
  apply bind_Some in H as (da & Eda & H).
  apply bind_Some in H as (v & Ev & H).
  apply bind_Some in H as (va & Eva & H).
  apply bind_Some in H as (h & Eh & H).
  apply bind_Some in H as (ha & Eha & H).
  injection H as <-. cbn.
  apply set_item_Some in Eda as [Ld ->].
  apply set_item_Some in Eva as [Lv ->].
  apply set_item_Some in Eha as [Lh ->].
  rewrite !list_lookup_insert_eq by assumption. cbn.
  repeat (split; [first [reflexivity | assumption] |]).
  exists d, v, h. repeat split; first [assumption | reflexivity].
Qed.

(** A pass of the loop writes index [i] only, and for [i > 0] establishes
    the lag at [i]. *)
Lemma loop_body_spec (engine : Engine) (sig : Signals) (i : nat) (s s' : Series) :
  loop_body engine sig i s = Some s' ->
  (forall j, j <> i ->
     temperature_updated s' !! j = temperature_updated s !! j /\
     humidity_updated s' !! j = humidity_updated s !! j /\
     moisture_updated s' !! j = moisture_updated s !! j /\
     dehumidifier_action s' !! j = dehumidifier_action s !! j /\
     ventilation_action s' !! j = ventilation_action s !! j /\
     heating_action s' !! j = heating_action s !! j) /\
  (i = 0%nat ->
     temperature_updated s' = temperature_updated s /\
     humidity_updated s' = humidity_updated s /\
     moisture_updated s' = moisture_updated s) /\
  ((0 < i)%nat -> lagged sig s' i).
Proof.
  unfold loop_body, lagged. intros H.
  apply bind_Some in H as (s1 & Hplant & H).
  apply bind_Some in H as (sensdata & _ & Hctl).
  apply plant_update_spec in Hplant as (Pd & Pv & Ph & P0 & Ppos).
  apply decide_actions_spec in Hctl
    as (Ct & Ch & Cm & _ & _ & _ & d' & v' & h' & _ & _ & _ & Cd & Cv & Cha).
  rewrite Ct, Ch, Cm, Cd, Cv, Cha, Pd, Pv, Ph.
  destruct (Nat.eq_dec i 0%nat) as [-> | Hi].
  - rewrite (P0 eq_refl). split; [| split; [tauto | intros; lia]].
    intros j Hj. rewrite !list_lookup_insert_ne by congruence. tauto.
  - destruct Ppos as (pT & pH & pM & bT & bH & bM & d & v & h & H1 & H2 & H3 &
                      H4 & H5 & H6 & H7 & H8 & H9 & Lt & Lh & Lm & -> & -> & ->);
      [lia |].
    split; [| split; [intros; lia |]].
    + intros j Hj. rewrite !list_lookup_insert_ne by congruence. tauto.
    + intros _. exists pT, pH, pM, bT, bH, bM, d, v, h.
      rewrite !list_lookup_insert_ne by lia.
      rewrite !list_lookup_insert_eq by assumption.
      tauto.
Qed.

(** The lag at [t] only reads indices [t-1] and [t]. *)
Lemma lagged_frame (sig : Signals) (s s' : Series) (t : nat) :
  (forall j, (j <= t)%nat ->
     temperature_updated s' !! j = temperature_updated s !! j /\
     humidity_updated s' !! j = humidity_updated s !! j /\
     moisture_updated s' !! j = moisture_updated s !! j /\
     dehumidifier_action s' !! j = dehumidifier_action s !! j /\
     ventilation_action s' !! j = ventilation_action s !! j /\
     heating_action s' !! j = heating_action s !! j) ->
  lagged sig s t -> lagged sig s' t.
Proof.
  intros Hsame (pT & pH & pM & bT & bH & bM & d & v & h & H).
  exists pT, pH, pM, bT, bH, bM, d, v, h.
  destruct (Hsame (t - 1)%nat) as (A1 & A2 & A3 & A4 & A5 & A6); [lia |].
  destruct (Hsame t) as (B1 & B2 & B3 & _); [lia |].
  rewrite A1, A2, A3, A4, A5, A6, B1, B2, B3. exact H.
Qed.

(** *** The loop completes on well-formed signals *)

Lemma for_each_total {St : Type} (Inv : St -> Prop) (body : nat -> St -> option St) :
  forall n k s0,
    Inv s0 ->
    (forall i s, (k <= i < k + n)%nat -> Inv s ->
       exists s', body i s = Some s' /\ Inv s') ->
    exists s, Py.for_each body (seq k n) s0 = Some s /\ Inv s.
Proof.
  induction n as [| n IH]; intros k s0 H0 Hbody.
  - exists s0. now split.
  - destruct (Hbody k s0) as (s1 & E1 & H1); [lia | exact H0 |].
    destruct (IH (S k) s1 H1) as (s & Es & Hs).
    { intros i st Hi. apply Hbody. lia. }
    exists s. split; [| exact Hs]. cbn. rewrite E1. exact Es.
Qed.

Lemma lookup_defined {A : Type} (l : list A) (i : nat) :
  (i < length l)%nat -> exists x, l !! i = Some x.
Proof. intros H. apply lookup_lt_is_Some_2 in H as [x Hx]. now exists x. Qed.

Lemma add_same_length (a b : list Q) :
  length a = length b ->
  exists c, Py.add a b = Some c /\ length c = length a.
Proof.
  intros H. unfold Py.add. rewrite H, Nat.eqb_refl.
  eexists. split; [reflexivity |].
  rewrite length_zip_with. lia.
Qed.

Lemma plant_update_total (sig : Signals) (i : nat) (s : Series) :
  well_formed sig -> (i < length (time sig))%nat -> sized (length (time sig)) s ->
  exists s1, plant_update sig i s = Some s1 /\ sized (length (time sig)) s1.
Proof.
  intros (W1 & _ & W3 & _ & W5 & _) Hi (L1 & L2 & L3 & L4 & L5 & L6).
  unfold plant_update.
  destruct (0 <? Z.of_nat i)%Z eqn:Hpos; [| exists s; repeat split; assumption].
  apply Z.ltb_lt in Hpos. assert (Hp : (0 < i)%nat) by lia.
  destruct (lookup_defined (heating_action s) (i - 1)) as [h Hh]; [lia |].
  destruct (lookup_defined (dehumidifier_action s) (i - 1)) as [d Hd]; [lia |].
  destruct (lookup_defined (ventilation_action s) (i - 1)) as [v Hv]; [lia |].
  destruct (lookup_defined (temperature_updated s) (i - 1)) as [pT HpT]; [lia |].
  destruct (lookup_defined (humidity_updated s) (i - 1)) as [pH HpH]; [lia |].
  destruct (lookup_defined (moisture_updated s) (i - 1)) as [pM HpM]; [lia |].
  destruct (lookup_defined (temperature_base sig) i) as [bT HbT]; [lia |].
  destruct (lookup_defined (humidity_base sig) i) as [bH HbH]; [lia |].
  destruct (lookup_defined (moisture_base sig) i) as [bM HbM]; [lia |].
  eexists. split.
  - apply bind_Some. exists h. split; [rewrite index_pred by exact Hp; exact Hh |].
    apply bind_Some. eexists. split.
    { unfold update_temperature.
      rewrite index_of_nat, HbT, index_pred, HpT by exact Hp. reflexivity. }
    apply bind_Some. eexists. split; [apply set_item_Some; split; [lia | reflexivity] |].
    apply bind_Some. exists d. split; [rewrite index_pred by exact Hp; exact Hd |].
    apply bind_Some. exists v. split; [rewrite index_pred by exact Hp; exact Hv |].
    apply bind_Some. eexists. split.
    { unfold update_humidity.
      rewrite index_of_nat, HbH, index_pred, HpH by exact Hp. reflexivity. }
    apply bind_Some. eexists. split; [apply set_item_Some; split; [lia | reflexivity] |].
    apply bind_Some. exists v. split; [rewrite index_pred by exact Hp; exact Hv |].
    apply bind_Some. eexists. split.
    { unfold update_moisture.
      rewrite index_of_nat, HbM, index_pred, HpM by exact Hp. reflexivity. }
    apply bind_Some. eexists. split; [apply set_item_Some; split; [lia | reflexivity] |].
    reflexivity.
  - unfold sized. cbn. rewrite !length_insert. repeat split; assumption.
Qed.

Lemma read_sensors_total (sig : Signals) (i : nat) (s : Series) :
  well_formed sig -> (i < length (time sig))%nat -> sized (length (time sig)) s ->
  exists t h m, read_sensors sig i s = Some [t; h; m].
Proof.
  intros (_ & W2 & _ & W4 & _ & W6) Hi (L1 & L2 & L3 & _).
  destruct (add_same_length (temperature_updated s) (temperature_noise sig))
    as (nt & Ent & Lnt); [lia |].
  destruct (add_same_length (humidity_updated s) (humidity_noise sig))
    as (nh & Enh & Lnh); [lia |].
  destruct (add_same_length (moisture_updated s) (moisture_noise sig))
    as (nm & Enm & Lnm); [lia |].
  unfold read_sensors. rewrite Ent, Enh, Enm. cbn [mbind option_bind].
  rewrite !smooth_data_window by lia. cbn [mbind option_bind].
  eexists _, _, _. reflexivity.
Qed.

Lemma decide_actions_total (engine : Engine) (i n : nat) (t h m : Q) (s : Series) :
  (forall rules inputs output, is_Some (engine rules inputs output)) ->
  (i < n)%nat -> sized n s ->
  exists s', decide_actions engine i [t; h; m] s = Some s' /\ sized n s'.
Proof.
  intros Htot Hi (L1 & L2 & L3 & L4 & L5 & L6).
  unfold decide_actions. rewrite Z.mod_1_r. cbn [Z.eqb].
  destruct (Htot Dehumidifier.dehumidifier_ctrl [("humidity", h)] "dehumidifier")
    as [d Hd].
  destruct (Htot Ventilation.ventilation_ctrl [("humidity", h); ("moisture", m)]
              "ventilation") as [v Hv].
  destruct (Htot Heating.heating_ctrl [("temperature", t)] "heating") as [a Ha].
  eexists. split.
  - apply bind_Some. exists d. split; [exact Hd |].
    apply bind_Some. eexists. split; [apply set_item_Some; split; [lia | reflexivity] |].
    apply bind_Some. exists v. split; [exact Hv |].
    apply bind_Some. eexists. split; [apply set_item_Some; split; [lia | reflexivity] |].
    apply bind_Some. exists a. split; [exact Ha |].
    apply bind_Some. eexists. split; [apply set_item_Some; split; [lia | reflexivity] |].
    reflexivity.
  - unfold sized. cbn. rewrite !length_insert. repeat split; assumption.
Qed.

(** On well-formed signals, with an engine that returns a value for every
    reading, the loop runs through all time steps. *)
Lemma simulation_completes (engine : Engine) (sig : Signals) :
  well_formed sig ->
  (forall rules inputs output, is_Some (engine rules inputs output)) ->
  exists s, simulation engine sig = Some s /\ sized (length (time sig)) s.
Proof.
  intros Hwf Htot. unfold simulation, Py.for_range.
  apply (for_each_total (sized (length (time sig)))).
  - destruct Hwf as (W1 & _ & W3 & _ & W5 & _).
    unfold sized, initial. cbn. rewrite !length_replicate. repeat split; assumption.
  - intros i s Hi Hs. unfold loop_body.
    destruct (plant_update_total sig i s Hwf) as (s1 & E1 & H1); [lia | exact Hs |].
    destruct (read_sensors_total sig i s1 Hwf) as (t & h & m & E2); [lia | exact H1 |].
    destruct (decide_actions_total engine i (length (time sig)) t h m s1 Htot)
      as (s' & E3 & H3); [lia | exact H1 |].
    exists s'. split; [| exact H3].
    rewrite E1. cbn [mbind option_bind]. rewrite E2. cbn [mbind option_bind]. exact E3.
Qed.

(** C7.  In every completed run, each updated series starts at its base
    value ([updated[0] = base[0]]), and at every index [0 < t < len(time)] the
    updated temperature, humidity and moisture at [t] are
    [next_temperature], [next_humidity], [next_moisture] of the updated value
    at [t-1], the base value at [t] and the actions found at [t-1] in the
    final action series, and of nothing else: no action recorded at [t] or
    later enters. *)
Theorem updated_series_one_step_lag (engine : Engine) (sig : Signals) (s : Series) :
  simulation engine sig = Some s ->
  (temperature_updated s !! 0%nat = temperature_base sig !! 0%nat /\
   humidity_updated s !! 0%nat = humidity_base sig !! 0%nat /\
   moisture_updated s !! 0%nat = moisture_base sig !! 0%nat) /\
  forall t, (0 < t < length (time sig))%nat -> lagged sig s t.
Proof.
  intros Hrun. unfold simulation, Py.for_range in Hrun.
  pose (Inv := fun (i : nat) (st : Series) =>
    (temperature_updated st !! 0%nat = temperature_base sig !! 0%nat /\
     humidity_updated st !! 0%nat = humidity_base sig !! 0%nat /\
     moisture_updated st !! 0%nat = moisture_base sig !! 0%nat) /\
    forall t, (0 < t < i)%nat -> lagged sig st t).
  apply (for_each_invariant Inv) in Hrun; [exact Hrun | |].
  - intros i st st' Hbody [(F1 & F2 & F3) Hlag].
    apply loop_body_spec in Hbody as (Hframe & Hfirst & Hnew).
    split.
    + destruct (Nat.eq_dec i 0%nat) as [-> | Hi].
      * destruct (Hfirst eq_refl) as (A1 & A2 & A3).
        now rewrite A1, A2, A3.
      * destruct (Hframe 0%nat) as (A1 & A2 & A3 & _); [lia |].
        now rewrite A1, A2, A3.
    + intros t Ht. destruct (Nat.eq_dec t i) as [-> | Hne].
      * apply Hnew. lia.
      * apply (lagged_frame sig st st').
        -- intros j Hj. apply Hframe. lia.
        -- apply Hlag. lia.
  - split; [repeat split |]. intros t Ht. lia.
Qed.

Lemma updated_series_one_step_lag_witness :
  exists s, simulation (reduced Mamdani.evaluate) three_steps = Some s /\
            lagged three_steps s 2.
Proof.
  eexists. split; [vm_compute; reflexivity |].
  apply (updated_series_one_step_lag (reduced Mamdani.evaluate)).
  - vm_compute. reflexivity.
  - cbn. lia.
Defined.

(** ** The closing analysis (Main.py) *)

Lemma select_all_false {A : Type} (f : Q -> bool) (xs : list Q) (l sel : list A) :
  Forall (fun x => f x = false) xs ->
  Py.select (map f xs) l = Some sel -> sel = [].
Proof.
  unfold Py.select. intros Hall.
  destruct (length (map f xs) =? length l)%nat; [| discriminate].
  intros [= <-]. revert l.
  induction Hall as [| x xs Hx Hall IH]; intros l; [reflexivity |].
  destruct l as [| y l]; [reflexivity |].
  cbn. rewrite Hx. rewrite decide_False by discriminate.
  apply IH.
Qed.

Lemma stability_empty (time : list Q) : stability time [] = None.
Proof. reflexivity. Qed.

(** C9, as the code has it.  In a completed run in which the updated
    temperature never lies in [18,22], or the updated humidity never in
    [40,60], or the updated moisture never at or below 20, the analysis at the
    end of [main] raises (the index error of [rise[0]] on the empty selection,
    when the selection itself did not raise) and [main] ends with that error:
    no rise time or stability is reported. *)
Theorem analysis_raises_when_band_never_entered
    (engine : Engine) (sig : Signals) (s : Series) :
  simulation engine sig = Some s ->
  Forall (fun x => in_band_temperature x = false) (temperature_updated s) \/
  Forall (fun x => in_band_humidity x = false) (humidity_updated s) \/
  Forall (fun x => in_band_moisture x = false) (moisture_updated s) ->
  analysis (time sig) s = None /\ main engine sig = None.
Proof.
  intros Hrun Hnever.
  assert (Han : analysis (time sig) s = None).
  { destruct (analysis (time sig) s) as [r |] eqn:E; [exfalso | reflexivity].
    unfold analysis in E.
    apply bind_Some in E as (rise_t & Et & E).
    apply bind_Some in E as (rise_h & Eh & E).
    apply bind_Some in E as (rise_m & Em & E).
    apply bind_Some in E as (st & Est & E).
    apply bind_Some in E as (sh & Esh & E).
    apply bind_Some in E as (sm & Esm & _).
    destruct Hnever as [H | [H | H]].
    - apply (select_all_false _ _ _ _ H) in Et as ->.
      rewrite stability_empty in Est. discriminate.
    - apply (select_all_false _ _ _ _ H) in Eh as ->.
      rewrite stability_empty in Esh. discriminate.
    - apply (select_all_false _ _ _ _ H) in Em as ->.
      rewrite stability_empty in Esm. discriminate. }
  split; [exact Han |].
  unfold main. rewrite Hrun. exact Han.
Qed.

Lemma analysis_raises_when_band_never_entered_witness :
  main (reduced Mamdani.evaluate) three_steps = None.
Proof.
  destruct (simulation (reduced Mamdani.evaluate) three_steps) as [s |] eqn:E;
    [| vm_compute in E; discriminate].
  apply (analysis_raises_when_band_never_entered _ _ s E).
  left. vm_compute in E. injection E as <-.
  repeat constructor.
Defined.

(** C9 as stated fails: a three-step run completes, its temperature stays
    near 15 and never enters [18,22], and the analysis ends [main] with an
    error instead of a report. *)
Lemma band_never_entered_is_fatal :
  exists s,
    simulation (reduced Mamdani.evaluate) three_steps = Some s /\
    Forall (fun x => in_band_temperature x = false) (temperature_updated s) /\
    analysis (time three_steps) s = None /\
    main (reduced Mamdani.evaluate) three_steps = None.
Proof.
  eexists. split; [vm_compute; reflexivity |].
  split; [repeat constructor |].
  split; vm_compute; reflexivity.
Qed.

(* ===================================================================== *)
(** * Further properties of the code *)
(* ===================================================================== *)

(** ** Smoothing with any window *)

Lemma slice_trailing_any (w : Z) (t : nat) (data : list Q) :
  (1 <= w)%Z -> (t < length data)%nat ->
  Py.slice data (Z.max 0 (Z.of_nat t - w + 1)) (Z.of_nat t + 1)
    = trailing (Z.to_nat w) t data.
Proof.
  intros Hw Ht. unfold Py.slice, Py.clamp, trailing.
  destruct (Z.max 0 (Z.of_nat t - w + 1) <? 0)%Z eqn:E1; [apply Z.ltb_lt in E1; lia |].
  destruct (Z.of_nat t + 1 <? 0)%Z eqn:E2; [apply Z.ltb_lt in E2; lia |].
  f_equal; [| f_equal]; lia.
Qed.

(** X1.  With any window size [w >= 1], at an index [t] of the series,
    [smooth_data] returns the arithmetic mean of the [min (t+1) w] samples
    [t+1-n .. t]: the window grows until it holds [w] samples and then
    slides. *)
Theorem smooth_data_any_window (w : Z) (t : nat) (data : list Q) :
  (1 <= w)%Z -> (t < length data)%nat ->
  let n := Nat.min (t + 1) (Z.to_nat w) in
  length (trailing (Z.to_nat w) t data) = n /\
  (forall k, (k < n)%nat ->
     trailing (Z.to_nat w) t data !! k = data !! (t + 1 - n + k)%nat) /\
  exists v, smooth_data (Z.of_nat t) data w = Some v /\
            v == mean (trailing (Z.to_nat w) t data).
Proof.
  intros Hw Ht n.
  assert (Hlen : length (trailing (Z.to_nat w) t data) = n).
  { unfold trailing. fold n. rewrite length_take, length_drop. lia. }
  split; [exact Hlen |]. split.
  { intros k Hk. unfold trailing. fold n.
    rewrite lookup_take_lt by exact Hk. now rewrite lookup_drop. }
  unfold smooth_data. rewrite slice_trailing_any by assumption.
  replace (Z.of_nat t + 1 - Z.max 0 (Z.of_nat t - w + 1))%Z with (Z.of_nat n)
    by (unfold n; lia).
  rewrite div_nonzero by (unfold Qeq; cbn; unfold n; lia).
  eexists. split; [reflexivity |].
  unfold mean. rewrite Hlen, sum_Qsum. reflexivity.
Qed.

Lemma smooth_data_any_window_witness :
  exists v, smooth_data 3 [1; 2; 3; 4; 5] 2 = Some v /\ v == mean [3; 4].
Proof.
  destruct (smooth_data_any_window 2 3 [1; 2; 3; 4; 5]) as (_ & _ & v & Hv & Hm);
    [lia | cbn; lia |].
  exists v. split; [exact Hv | exact Hm].
Defined.

(** X3.  [smooth_data] raises (a division by zero) exactly when
    [min (t+1) window_size = 0], whatever the data: for [t >= 0] only with a
    window of size 0.  It never raises an index error: past the end of the
    series it still divides by the full window [min (t+1) w], so the samples
    that exist are under-weighted, and an empty window gives 0. *)
Theorem smooth_data_edge (w t : Z) (data : list Q) :
  (smooth_data t data w = None <-> Z.min (t + 1) w = 0%Z) /\
  ((0 <= t)%Z -> (1 <= w)%Z -> (Z.of_nat (length data) <= t)%Z ->
   smooth_data t data w
     = Some (Py.sum (drop (Z.to_nat (Z.max 0 (t - w + 1))) data)
             / inject_Z (Z.min (t + 1) w))) /\
  ((0 <= t)%Z -> (1 <= w)%Z -> (Z.of_nat (length data) <= t - w + 1)%Z ->
   exists v, smooth_data t data w = Some v /\ v == 0).
Proof.
  assert (Hden : (t + 1 - Z.max 0 (t - w + 1) = Z.min (t + 1) w)%Z) by lia.
  split; [| split].
  - unfold smooth_data, Py.div. rewrite Hden.
    destruct (Qeq_bool (inject_Z (Z.min (t + 1) w)) 0) eqn:E.
    + apply Qeq_bool_iff in E. unfold Qeq in E. cbn in E. split; [lia | reflexivity].
    + apply Qeq_bool_neq in E. split; [discriminate |].
      intros H0. exfalso. apply E. rewrite H0. reflexivity.
  - intros Ht Hw Hlen. unfold smooth_data. rewrite Hden.
    rewrite div_nonzero by (unfold Qeq; cbn; lia).
    do 3 f_equal. unfold Py.slice, Py.clamp.
    destruct (Z.max 0 (t - w + 1) <? 0)%Z eqn:E1; [apply Z.ltb_lt in E1; lia |].
    destruct (t + 1 <? 0)%Z eqn:E2; [apply Z.ltb_lt in E2; lia |].
    destruct (Z.le_gt_cases (Z.of_nat (length data)) (Z.max 0 (t - w + 1))) as [Hge | Hlt].
    + rewrite !drop_ge by lia. now rewrite take_nil.
    + rewrite (Z.min_l (Z.max 0 (t - w + 1))) by lia.
      rewrite (Z.min_r (t + 1)) by lia.
      apply take_ge. rewrite length_drop. lia.
  - intros Ht Hw Hlen. unfold smooth_data. rewrite Hden.
    rewrite div_nonzero by (unfold Qeq; cbn; lia).
    eexists. split; [reflexivity |].
    unfold Py.slice, Py.clamp.
    destruct (Z.max 0 (t - w + 1) <? 0)%Z eqn:E1; [apply Z.ltb_lt in E1; lia |].
    rewrite drop_ge by lia. rewrite take_nil. cbn. unfold Qdiv. lra.
Qed.

Lemma smooth_data_edge_witness :
  smooth_data 5 [3; 6; 9] 5 = Some (Py.sum [6; 9] / 5) /\
  (exists v, smooth_data 9 [3; 6; 9] 5 = Some v /\ v == 0).
Proof.
  destruct (smooth_data_edge 5 5 [3; 6; 9]) as (_ & Hpast & _).
  destruct (smooth_data_edge 5 9 [3; 6; 9]) as (_ & _ & Hfar).
  split; [apply Hpast; cbn; lia | apply Hfar; cbn; lia].
Defined.

(** ** Indexing and range of the plant updates *)

Lemma index_None_iff {A : Type} (l : list A) (i : Z) :
  (0 <= i)%Z -> (Py.index l i = None <-> (Z.of_nat (length l) <= i)%Z).
Proof.
  intros Hi. rewrite index_nonneg by exact Hi. rewrite lookup_ge_None. lia.
Qed.

Lemma index_minus_one {A : Type} (l : list A) : Py.index l (-1) = last l.
Proof.
  unfold Py.index. cbn [Z.ltb Z.compare].
  destruct (Z.of_nat (length l) + -1 <? 0)%Z eqn:E.
  - apply Z.ltb_lt in E. destruct l; [reflexivity | cbn in E; lia].
  - apply Z.ltb_ge in E. rewrite last_lookup. f_equal. lia.
Qed.

(** X4.  For a time stamp [t >= 1] each plant update raises (an index error)
    exactly when [t] is past the end of the base series or [t-1] is past the
    end of the modified series; no other input makes it fail. *)
Theorem plant_updates_raise_iff_out_of_range
    (t : Z) (base modified : list Q) (h d v mn mx dc af : Q) :
  (1 <= t)%Z ->
  let out := (Z.of_nat (length base) <= t \/ Z.of_nat (length modified) <= t - 1)%Z in
  (update_temperature t base modified h mn mx dc af = None <-> out) /\
  (update_humidity t base modified d v mn dc af = None <-> out) /\
  (update_moisture t base modified v mn dc af = None <-> out).
Proof.
  intros Ht out.
  assert (Hb := index_None_iff base t ltac:(lia)).
  assert (Hm := index_None_iff modified (t - 1) ltac:(lia)).
  assert (Hout : out <-> Py.index base t = None \/ Py.index modified (t - 1) = None).
  { unfold out. rewrite Hb, Hm. reflexivity. }
  rewrite Hout.
  unfold update_temperature, update_humidity, update_moisture.
  destruct (Py.index base t) as [b |]; destruct (Py.index modified (t - 1)) as [p |];
    cbn; repeat split; intros H; auto; try discriminate;
    destruct H as [H | H]; discriminate.
Qed.

Lemma plant_updates_raise_iff_out_of_range_witness :
  update_temperature 2 [15; 16] [15; 15] 3 5 25 0.05 0.05 = None /\
  update_moisture 3 [25; 25; 25; 25] [25; 24] 3 0 0.05 0.05 = None.
Proof.
  destruct (plant_updates_raise_iff_out_of_range 2 [15; 16] [15; 15] 3 0 0 5 25 0.05 0.05)
    as ([_ HT] & _); [lia |].
  destruct (plant_updates_raise_iff_out_of_range 3 [25; 25; 25; 25] [25; 24]
              0 0 3 0 25 0.05 0.05) as (_ & _ & [_ HM]); [lia |].
  split; [apply HT; left; cbn; lia | apply HM; right; cbn; lia].
Defined.

(** X5.  At time stamp 0 the plant updates do not fail on non-empty series:
    the index [time_stamp - 1 = -1] wraps around, and the "previous" value
    they use is the last element of the modified series.  (The driver avoids
    this by updating only for [time_stamp > 0].) *)
Theorem plant_updates_wrap_at_zero
    (base_rest modified : list Q) (b prev h d v mn mx dc af : Q) :
  last modified = Some prev ->
  update_temperature 0 (b :: base_rest) modified h mn mx dc af
    = update_temperature 1 [b; b] [prev] h mn mx dc af /\
  update_humidity 0 (b :: base_rest) modified d v mn dc af
    = update_humidity 1 [b; b] [prev] d v mn dc af /\
  update_moisture 0 (b :: base_rest) modified v mn dc af
    = update_moisture 1 [b; b] [prev] v mn dc af.
Proof.
  intros Hlast.
  unfold update_temperature, update_humidity, update_moisture.
  change (0 - 1)%Z with (-1)%Z. rewrite index_minus_one, Hlast.
  repeat split; reflexivity.
Qed.

Lemma plant_updates_wrap_at_zero_witness :
  update_temperature 0 [15; 16; 17] [15; 18; 24] 10 5 25 0.05 0.05
    = Some (24 + (25 - 24) * (10 / 10) * 0.05).
Proof.
  destruct (plant_updates_wrap_at_zero [16; 17] [15; 18; 24] 15 24 10 0 0 5 25 0.05 0.05)
    as (HT & _); [reflexivity |].
  rewrite HT. reflexivity.
Defined.

(** The next values, for any constants, as functions of the previous value,
    the base value and the action(s). *)
Lemma update_temperature_value (t : nat) (base modified : list Q)
    (h mn mx dc af b prev : Q) :
  (0 < t)%nat -> base !! t = Some b -> modified !! (t - 1)%nat = Some prev ->
  update_temperature (Z.of_nat t) base modified h mn mx dc af
    = update_temperature 1 [b; b] [prev] h mn mx dc af.
Proof.
  intros Ht Hb Hp. unfold update_temperature.
  rewrite index_of_nat, Hb, index_pred, Hp by exact Ht. reflexivity.
Qed.

Lemma tenth_bounds (h lo hi : Q) :
  lo <= h -> h <= hi -> lo * (1 # 10) <= h / 10 /\ h / 10 <= hi * (1 # 10).
Proof.
  intros H1 H2.
  assert (E : h / 10 == h * (1 # 10)) by (unfold Qdiv; reflexivity).
  rewrite E. split; lra.
Qed.

Lemma update_temperature_body (h mn mx dc af b prev : Q) :
  update_temperature 1 [b; b] [prev] h mn mx dc af
    = Some (if Py.Qlt_bool 0 (h / 10) then
              prev + (mx - prev) * (h / 10) * af
            else if Py.Qlt_bool (h / 10) 0 then
              prev - (prev - mn) * Qabs (h / 10) * af
            else if Py.Qlt_bool b prev then Qmax b (prev - dc)
            else Qmin b (prev + dc)).
Proof. reflexivity. Qed.

Lemma temperature_value_in_range (h mn mx dc af b prev : Q) :
  mn <= prev -> prev <= mx -> mn <= b -> b <= mx ->
  -10 <= h -> h <= 10 -> 0 <= af -> af <= 1 -> 0 <= dc ->
  let r := if Py.Qlt_bool 0 (h / 10) then
             prev + (mx - prev) * (h / 10) * af
           else if Py.Qlt_bool (h / 10) 0 then
             prev - (prev - mn) * Qabs (h / 10) * af
           else if Py.Qlt_bool b prev then Qmax b (prev - dc)
           else Qmin b (prev + dc) in
  mn <= r /\ r <= mx.
Proof.
  intros P1 P2 B1 B2 H1 H2 A1 A2 D r. unfold r. clear r.
  destruct (tenth_bounds h (-10) 10 H1 H2) as [T1 T2].
  case_lt 0 (h / 10).
  - assert (0 <= (h / 10) * af) by (apply Qmult_le_0_compat; lra).
    assert ((h / 10) * af <= 1).
    { assert (0 <= (1 - h / 10) * af) by (apply Qmult_le_0_compat; lra). lra. }
    assert (0 <= (mx - prev) * ((h / 10) * af)) by (apply Qmult_le_0_compat; lra).
    assert (0 <= (mx - prev) * (1 - (h / 10) * af)) by (apply Qmult_le_0_compat; lra).
    split; lra.
  - case_lt (h / 10) 0.
    + assert (EA : Qabs (h / 10) == - (h / 10)) by (apply Qabs_neg; lra).
      remember (Qabs (h / 10)) as a eqn:Ha. clear Ha.
      assert (0 <= a * af) by (apply Qmult_le_0_compat; lra).
      assert (a * af <= 1).
      { assert (0 <= (1 - a) * af) by (apply Qmult_le_0_compat; lra). lra. }
      assert (0 <= (prev - mn) * (a * af)) by (apply Qmult_le_0_compat; lra).
      assert (0 <= (prev - mn) * (1 - a * af)) by (apply Qmult_le_0_compat; lra).
      split; lra.
    + case_lt b prev.
      * split.
        -- apply Qle_trans with b; [exact B1 | apply Q.le_max_l].
        -- apply Q.max_lub; lra.
      * split.
        -- apply Q.min_glb; lra.
        -- apply Qle_trans with b; [apply Q.le_min_l | exact B2].
Qed.

Lemma update_humidity_value (t : nat) (base modified : list Q)
    (d v mn dc af b prev : Q) :
  (0 < t)%nat -> base !! t = Some b -> modified !! (t - 1)%nat = Some prev ->
  update_humidity (Z.of_nat t) base modified d v mn dc af
    = update_humidity 1 [b; b] [prev] d v mn dc af.
Proof.
  intros Ht Hb Hp. unfold update_humidity.
  rewrite index_of_nat, Hb, index_pred, Hp by exact Ht. reflexivity.
Qed.

Lemma update_moisture_value (t : nat) (base modified : list Q)
    (v mn dc af b prev : Q) :
  (0 < t)%nat -> base !! t = Some b -> modified !! (t - 1)%nat = Some prev ->
  update_moisture (Z.of_nat t) base modified v mn dc af
    = update_moisture 1 [b; b] [prev] v mn dc af.
Proof.
  intros Ht Hb Hp. unfold update_moisture.
  rewrite index_of_nat, Hb, index_pred, Hp by exact Ht. reflexivity.
Qed.

(** The common law of humidity and moisture on an intensity [i]. *)
Lemma pull_down_in_range (i mn dc af b prev top : Q) :
  mn <= prev -> prev <= top -> mn <= b -> b <= top ->
  0 <= af -> i * af <= 1 -> 0 <= dc -> dc <= 1 ->
  let r := if Py.Qlt_bool 0 i
           then prev - (prev - mn) * i * af
           else prev + (b - prev) * dc in
  mn <= r /\ r <= top.
Proof.
  intros P1 P2 B1 B2 A1 A2 D1 D2 r. unfold r.
  case_lt 0 i.
  - assert (0 <= i * af) by (apply Qmult_le_0_compat; lra).
    assert (0 <= (prev - mn) * (i * af)) by (apply Qmult_le_0_compat; lra).
    assert (0 <= (prev - mn) * (1 - i * af)) by (apply Qmult_le_0_compat; lra).
    split; lra.
  - assert (0 <= (top - prev) * (1 - dc)) by (apply Qmult_le_0_compat; lra).
    assert (0 <= (top - b) * dc) by (apply Qmult_le_0_compat; lra).
    assert (0 <= (prev - mn) * (1 - dc)) by (apply Qmult_le_0_compat; lra).
    assert (0 <= (b - mn) * dc) by (apply Qmult_le_0_compat; lra).
    split; lra.
Qed.

(** ** Invariants of a completed run *)

(** A bound on every element of a closed list of rationals. *)
Ltac forall_Q :=
  cbn; repeat (apply List.Forall_cons; [first [split; decide_Q | decide_Q] |]);
  apply List.Forall_nil.

(** The one-step lag of every index (shared by the results below). *)
Lemma simulation_lag (engine : Engine) (sig : Signals) (s : Series) :
  simulation engine sig = Some s ->
  (temperature_updated s !! 0%nat = temperature_base sig !! 0%nat /\
   humidity_updated s !! 0%nat = humidity_base sig !! 0%nat /\
   moisture_updated s !! 0%nat = moisture_base sig !! 0%nat) /\
  forall t, (0 < t < length (time sig))%nat -> lagged sig s t.
Proof.
  intros Hrun. unfold simulation, Py.for_range in Hrun.
  pose (Inv := fun (i : nat) (st : Series) =>
    (temperature_updated st !! 0%nat = temperature_base sig !! 0%nat /\
     humidity_updated st !! 0%nat = humidity_base sig !! 0%nat /\
     moisture_updated st !! 0%nat = moisture_base sig !! 0%nat) /\
    forall t, (0 < t < i)%nat -> lagged sig st t).
  apply (for_each_invariant Inv) in Hrun; [exact Hrun | |].
  - intros i st st' Hbody [(F1 & F2 & F3) Hlag].
    apply loop_body_spec in Hbody as (Hframe & Hfirst & Hnew).
    split.
    + destruct (Nat.eq_dec i 0%nat) as [-> | Hi].
      * destruct (Hfirst eq_refl) as (A1 & A2 & A3). now rewrite A1, A2, A3.
      * destruct (Hframe 0%nat) as (A1 & A2 & A3 & _); [lia |].
        now rewrite A1, A2, A3.
    + intros t Ht. destruct (Nat.eq_dec t i) as [-> | Hne].
      * apply Hnew. lia.
      * apply (lagged_frame sig st st').
        -- intros j Hj. apply Hframe. lia.
        -- apply Hlag. lia.
  - split; [repeat split |]. intros t Ht. lia.
Qed.

Lemma update_humidity_body (d v mn dc af b prev : Q) :
  update_humidity 1 [b; b] [prev] d v mn dc af
    = Some (if Py.Qlt_bool 0 ((d + v) / 10)
            then prev - (prev - mn) * ((d + v) / 10) * af
            else prev + (b - prev) * dc).
Proof. reflexivity. Qed.

Lemma update_moisture_body (v mn dc af b prev : Q) :
  update_moisture 1 [b; b] [prev] v mn dc af
    = Some (if Py.Qlt_bool 0 (v / 10)
            then prev - (prev - mn) * (v / 10) * af
            else prev + (b - prev) * dc).
Proof. reflexivity. Qed.

Lemma next_temperature_in_limits (prev b h : Q) :
  temperature_min_limit <= prev -> prev <= temperature_max_limit ->
  temperature_min_limit <= b -> b <= temperature_max_limit ->
  -10 <= h -> h <= 10 ->
  temperature_min_limit <= next_temperature prev b h /\
  next_temperature prev b h <= temperature_max_limit.
Proof.
  intros. unfold next_temperature. rewrite update_temperature_body. cbn [default].
  apply temperature_value_in_range; try assumption; decide_Q.
Qed.

Lemma next_humidity_in_limits (prev b d v top : Q) :
  humidity_min_limit <= prev -> prev <= top ->
  humidity_min_limit <= b -> b <= top ->
  d <= 10 -> v <= 10 ->
  humidity_min_limit <= next_humidity prev b d v /\ next_humidity prev b d v <= top.
Proof.
  intros P1 P2 B1 B2 D V. unfold next_humidity. rewrite update_humidity_body.
  cbn [default]. apply pull_down_in_range; try assumption; try decide_Q.
  destruct (tenth_bounds (d + v) (d + v) 20) as [_ T]; [lra | lra |].
  unfold humidity_action_factor. lra.
Qed.

Lemma next_moisture_in_limits (prev b v top : Q) :
  moisture_min_limit <= prev -> prev <= top ->
  moisture_min_limit <= b -> b <= top ->
  v <= 10 ->
  moisture_min_limit <= next_moisture prev b v /\ next_moisture prev b v <= top.
Proof.
  intros P1 P2 B1 B2 V. unfold next_moisture. rewrite update_moisture_body.
  cbn [default]. apply pull_down_in_range; try assumption; try decide_Q.
  destruct (tenth_bounds v v 10) as [_ T]; [lra | lra |].
  unfold moisture_action_factor. lra.
Qed.

Lemma run_limits (engine : Engine) (sig : Signals) (s : Series) (top_h top_m : Q) :
  simulation engine sig = Some s ->
  Forall (fun b => temperature_min_limit <= b /\ b <= temperature_max_limit)
         (temperature_base sig) ->
  Forall (fun b => humidity_min_limit <= b /\ b <= top_h) (humidity_base sig) ->
  Forall (fun b => moisture_min_limit <= b /\ b <= top_m) (moisture_base sig) ->
  Forall (fun a => -10 <= a /\ a <= 10) (heating_action s) ->
  Forall (fun a => a <= 10) (dehumidifier_action s) ->
  Forall (fun a => a <= 10) (ventilation_action s) ->
  forall t, (t < length (time sig))%nat ->
    (forall x, temperature_updated s !! t = Some x ->
       temperature_min_limit <= x /\ x <= temperature_max_limit) /\
    (forall x, humidity_updated s !! t = Some x -> humidity_min_limit <= x /\ x <= top_h) /\
    (forall x, moisture_updated s !! t = Some x -> moisture_min_limit <= x /\ x <= top_m).
Proof.
  intros Hrun BT BH BM AH AD AV.
  destruct (simulation_lag engine sig s Hrun) as [(F1 & F2 & F3) Hlag].
  rewrite Forall_lookup in BT, BH, BM, AH, AD, AV.
  induction t as [| t IH]; intros Ht.
  - rewrite F1, F2, F3. split; [| split]; intros x Hx;
      first [apply (BT _ _ Hx) | apply (BH _ _ Hx) | apply (BM _ _ Hx)].
  - destruct (Hlag (S t)) as (pT & pH & pM & bT & bH & bM & d & v & h &
      H1 & H2 & H3 & H4 & H5 & H6 & H7 & H8 & H9 & HT & HH & HM); [lia |].
    replace (S t - 1)%nat with t in * by lia.
    destruct IH as (IT & IHm & IM); [lia |].
    destruct (IT _ H1) as [T1 T2]. destruct (IHm _ H2) as [U1 U2].
    destruct (IM _ H3) as [M1 M2].
    destruct (BT _ _ H4) as [BT1 BT2]. destruct (BH _ _ H5) as [BH1 BH2].
    destruct (BM _ _ H6) as [BM1 BM2].
    destruct (AH _ _ H9) as [A1 A2].
    assert (D := AD _ _ H7). assert (V := AV _ _ H8).
    rewrite HT, HH, HM.
    split; [| split]; intros x [= <-];
      first [apply next_temperature_in_limits; assumption
            | apply next_humidity_in_limits; assumption
            | apply next_moisture_in_limits; assumption].
Qed.

(** X8.  In a completed run whose base temperatures lie between the
    temperature limits (5 and 25), whose base humidity and moisture are not
    negative, and whose recorded actions lie in the actuator range (heating in
    [[-10, 10]], dehumidifier and ventilation at most 10), every updated
    temperature stays between the limits and every updated humidity and
    moisture stays between 0 and the largest base value. *)
Theorem run_stays_within_limits
    (engine : Engine) (sig : Signals) (s : Series) (top_h top_m : Q) :
  simulation engine sig = Some s ->
  Forall (fun b => temperature_min_limit <= b /\ b <= temperature_max_limit)
         (temperature_base sig) ->
  Forall (fun b => humidity_min_limit <= b /\ b <= top_h) (humidity_base sig) ->
  Forall (fun b => moisture_min_limit <= b /\ b <= top_m) (moisture_base sig) ->
  Forall (fun a => -10 <= a /\ a <= 10) (heating_action s) ->
  Forall (fun a => a <= 10) (dehumidifier_action s) ->
  Forall (fun a => a <= 10) (ventilation_action s) ->
  forall t, (t < length (time sig))%nat ->
    (forall x, temperature_updated s !! t = Some x ->
       temperature_min_limit <= x /\ x <= temperature_max_limit) /\
    (forall x, humidity_updated s !! t = Some x -> humidity_min_limit <= x /\ x <= top_h) /\
    (forall x, moisture_updated s !! t = Some x -> moisture_min_limit <= x /\ x <= top_m).
Proof. exact (run_limits engine sig s top_h top_m). Qed.

Lemma run_stays_within_limits_witness :
  exists s, simulation (reduced Mamdani.evaluate) three_steps = Some s /\
    forall x, temperature_updated s !! 2%nat = Some x ->
              temperature_min_limit <= x /\ x <= temperature_max_limit.
Proof.
  eexists. split; [vm_compute; reflexivity |].
  refine (proj1 (run_stays_within_limits (reduced Mamdani.evaluate) three_steps _ 71 25
                   _ _ _ _ _ _ _ 2%nat _));
    first [ vm_compute; reflexivity
          | cbn; lia
          | forall_Q ].
Defined.

(** X9.  In such a run the plant is monotone at every step: after a
    positive heating action the updated temperature is not below the previous
    one, after a positive dehumidifier-plus-ventilation action the updated
    humidity is not above the previous one, and after a positive ventilation
    action the updated moisture is not above the previous one. *)
Theorem run_is_monotone
    (engine : Engine) (sig : Signals) (s : Series) (top_h top_m : Q) :
  simulation engine sig = Some s ->
  Forall (fun b => temperature_min_limit <= b /\ b <= temperature_max_limit)
         (temperature_base sig) ->
  Forall (fun b => humidity_min_limit <= b /\ b <= top_h) (humidity_base sig) ->
  Forall (fun b => moisture_min_limit <= b /\ b <= top_m) (moisture_base sig) ->
  Forall (fun a => -10 <= a /\ a <= 10) (heating_action s) ->
  Forall (fun a => a <= 10) (dehumidifier_action s) ->
  Forall (fun a => a <= 10) (ventilation_action s) ->
  forall t, (0 < t < length (time sig))%nat ->
  exists pT pH pM xT xH xM d v h,
    temperature_updated s !! (t - 1)%nat = Some pT /\
    humidity_updated s !! (t - 1)%nat = Some pH /\
    moisture_updated s !! (t - 1)%nat = Some pM /\
    temperature_updated s !! t = Some xT /\
    humidity_updated s !! t = Some xH /\
    moisture_updated s !! t = Some xM /\
    dehumidifier_action s !! (t - 1)%nat = Some d /\
    ventilation_action s !! (t - 1)%nat = Some v /\
    heating_action s !! (t - 1)%nat = Some h /\
    (0 < h -> pT <= xT) /\
    (0 < d + v -> xH <= pH) /\
    (0 < v -> xM <= pM).
Proof.
  intros Hrun BT BH BM AH AD AV t Ht.
  destruct (simulation_lag engine sig s Hrun) as [_ Hlag].
  destruct (Hlag t Ht) as (pT & pH & pM & bT & bH & bM & d & v & h &
    H1 & H2 & H3 & H4 & H5 & H6 & H7 & H8 & H9 & HT & HH & HM).
  destruct (run_limits engine sig s top_h top_m Hrun BT BH BM AH AD AV (t - 1)%nat)
    as (LT & LH & LM); [lia |].
  destruct (LT _ H1) as [T1 T2]. destruct (LH _ H2) as [U1 U2].
  destruct (LM _ H3) as [M1 M2].
  exists pT, pH, pM, (next_temperature pT bT h), (next_humidity pH bH d v),
    (next_moisture pM bM v), d, v, h.
  do 9 (split; [assumption |]).
  split; [| split].
  - intros Hh. unfold next_temperature. rewrite update_temperature_body. cbn [default from_option id].
    destruct (tenth_bounds h 0 h) as [T _]; [lra | lra |].
    assert (Hi : 0 < h / 10).
    { assert (E : h / 10 == h * (1 # 10)) by (unfold Qdiv; reflexivity). lra. }
    apply Qlt_bool_true in Hi as Hb. rewrite Hb.
    assert (0 <= (temperature_max_limit - pT) * (h / 10))
      by (apply Qmult_le_0_compat; lra).
    assert (0 <= (temperature_max_limit - pT) * (h / 10) * temperature_action_factor)
      by (apply Qmult_le_0_compat; [lra | decide_Q]).
    lra.
  - intros Hdv. unfold next_humidity. rewrite update_humidity_body. cbn [default from_option id].
    assert (Hi : 0 < (d + v) / 10).
    { assert (E : (d + v) / 10 == (d + v) * (1 # 10)) by (unfold Qdiv; reflexivity). lra. }
    apply Qlt_bool_true in Hi as Hb. rewrite Hb.
    assert (0 <= (pH - humidity_min_limit) * ((d + v) / 10))
      by (apply Qmult_le_0_compat; lra).
    assert (0 <= (pH - humidity_min_limit) * ((d + v) / 10) * humidity_action_factor)
      by (apply Qmult_le_0_compat; [lra | decide_Q]).
    lra.
  - intros Hv. unfold next_moisture. rewrite update_moisture_body. cbn [default from_option id].
    assert (Hi : 0 < v / 10).
    { assert (E : v / 10 == v * (1 # 10)) by (unfold Qdiv; reflexivity). lra. }
    apply Qlt_bool_true in Hi as Hb. rewrite Hb.
    assert (0 <= (pM - moisture_min_limit) * (v / 10))
      by (apply Qmult_le_0_compat; lra).
    assert (0 <= (pM - moisture_min_limit) * (v / 10) * moisture_action_factor)
      by (apply Qmult_le_0_compat; [lra | decide_Q]).
    lra.
Qed.

Lemma run_is_monotone_witness :
  exists s, simulation (reduced Mamdani.evaluate) three_steps = Some s /\
    exists pT xT h,
      temperature_updated s !! 1%nat = Some pT /\
      temperature_updated s !! 2%nat = Some xT /\
      heating_action s !! 1%nat = Some h /\
      (0 < h -> pT <= xT).
Proof.
  destruct (simulation (reduced Mamdani.evaluate) three_steps) as [s |] eqn:E;
    [| vm_compute in E; discriminate].
  assert (Hs := E). vm_compute in Hs. injection Hs as Hs. subst s.
  eexists. split; [reflexivity |].
  edestruct (run_is_monotone (reduced Mamdani.evaluate) three_steps _ 71 25 E)
    with (t := 2%nat)
    as (pT & pH & pM & xT & xH & xM & d & v & h &
        H1 & _ & _ & H4 & _ & _ & _ & _ & H9 & HT & _);
    [forall_Q .. | cbn; lia |].
  exists pT, xT, h. repeat split; assumption.
Defined.

(** *** The plant never moves against a positive action *)

Lemma next_temperature_not_below (prev b h : Q) :
  prev <= temperature_max_limit -> 0 < h / 10 ->
  prev <= next_temperature prev b h.
Proof.
  intros Hp Hi. unfold next_temperature. rewrite update_temperature_body.
  cbn [default from_option id].
  apply Qlt_bool_true in Hi as Hb. rewrite Hb.
  assert (0 <= (temperature_max_limit - prev) * (h / 10))
    by (apply Qmult_le_0_compat; lra).
  assert (0 <= (temperature_max_limit - prev) * (h / 10) * temperature_action_factor)
    by (apply Qmult_le_0_compat; [lra | decide_Q]).
  lra.
Qed.

Lemma next_humidity_not_above (prev b d v : Q) :
  humidity_min_limit <= prev -> 0 < (d + v) / 10 ->
  next_humidity prev b d v <= prev.
Proof.
  intros Hp Hi. unfold next_humidity. rewrite update_humidity_body.
  cbn [default from_option id].
  apply Qlt_bool_true in Hi as Hb. rewrite Hb.
  assert (0 <= (prev - humidity_min_limit) * ((d + v) / 10))
    by (apply Qmult_le_0_compat; lra).
  assert (0 <= (prev - humidity_min_limit) * ((d + v) / 10) * humidity_action_factor)
    by (apply Qmult_le_0_compat; [lra | decide_Q]).
  lra.
Qed.

Lemma next_moisture_not_above (prev b v : Q) :
  moisture_min_limit <= prev -> 0 < v / 10 ->
  next_moisture prev b v <= prev.
Proof.
  intros Hp Hi. unfold next_moisture. rewrite update_moisture_body.
  cbn [default from_option id].
  apply Qlt_bool_true in Hi as Hb. rewrite Hb.
  assert (0 <= (prev - moisture_min_limit) * (v / 10))
    by (apply Qmult_le_0_compat; lra).
  assert (0 <= (prev - moisture_min_limit) * (v / 10) * moisture_action_factor)
    by (apply Qmult_le_0_compat; [lra | decide_Q]).
  lra.
Qed.

(** C5.  At every time step [t > 0] of a completed run (base temperatures
    between the temperature limits, base humidity and moisture not negative,
    recorded actions in the actuator range), with the previous values
    [pT], [pH], [pM] at [t-1] and the actions [d], [v], [h] recorded at [t-1]:
    the calls of [update_temperature], [update_humidity] and [update_moisture]
    that [Main.py] makes at [t] return the values [xT], [xH], [xM] stored at
    [t], and
    - a positive heating intensity [h / 10] gives [pT <= xT],
    - a positive dehumidifier-plus-ventilation intensity [(d + v) / 10] gives
      [xH <= pH],
    - a positive ventilation intensity [v / 10] gives [xM <= pM]. *)
Theorem positive_action_never_reverses_the_plant
    (engine : Engine) (sig : Signals) (s : Series) (top_h top_m : Q) :
  simulation engine sig = Some s ->
  Forall (fun b => temperature_min_limit <= b /\ b <= temperature_max_limit)
         (temperature_base sig) ->
  Forall (fun b => humidity_min_limit <= b /\ b <= top_h) (humidity_base sig) ->
  Forall (fun b => moisture_min_limit <= b /\ b <= top_m) (moisture_base sig) ->
  Forall (fun a => -10 <= a /\ a <= 10) (heating_action s) ->
  Forall (fun a => a <= 10) (dehumidifier_action s) ->
  Forall (fun a => a <= 10) (ventilation_action s) ->
  forall t, (0 < t < length (time sig))%nat ->
  exists pT pH pM d v h xT xH xM,
    temperature_updated s !! (t - 1)%nat = Some pT /\
    humidity_updated s !! (t - 1)%nat = Some pH /\
    moisture_updated s !! (t - 1)%nat = Some pM /\
    dehumidifier_action s !! (t - 1)%nat = Some d /\
    ventilation_action s !! (t - 1)%nat = Some v /\
    heating_action s !! (t - 1)%nat = Some h /\
    update_temperature (Z.of_nat t) (temperature_base sig) (temperature_updated s) h
      temperature_min_limit temperature_max_limit
      temperature_decay_rate temperature_action_factor = Some xT /\
    update_humidity (Z.of_nat t) (humidity_base sig) (humidity_updated s) d v
      humidity_min_limit humidity_decay_rate humidity_action_factor = Some xH /\
    update_moisture (Z.of_nat t) (moisture_base sig) (moisture_updated s) v
      moisture_min_limit moisture_decay_rate moisture_action_factor = Some xM /\
    temperature_updated s !! t = Some xT /\
    humidity_updated s !! t = Some xH /\
    moisture_updated s !! t = Some xM /\
    (0 < h / 10 -> pT <= xT) /\
    (0 < (d + v) / 10 -> xH <= pH) /\
    (0 < v / 10 -> xM <= pM).
Proof.
  intros Hrun BT BH BM AH AD AV t Ht.
  destruct (simulation_lag engine sig s Hrun) as [_ Hlag].
  destruct (Hlag t Ht) as (pT & pH & pM & bT & bH & bM & d & v & h &
    H1 & H2 & H3 & H4 & H5 & H6 & H7 & H8 & H9 & HT & HH & HM).
  destruct (run_limits engine sig s top_h top_m Hrun BT BH BM AH AD AV (t - 1)%nat)
    as (LT & LH & LM); [lia |].
  destruct (LT _ H1) as [_ T2]. destruct (LH _ H2) as [U1 _].
  destruct (LM _ H3) as [M1 _].
  exists pT, pH, pM, d, v, h,
    (next_temperature pT bT h), (next_humidity pH bH d v), (next_moisture pM bM v).
  do 6 (split; [assumption |]).
  split.
  { rewrite (update_temperature_value t _ _ h _ _ _ _ bT pT) by (assumption || lia).
    unfold next_temperature. now rewrite update_temperature_body. }
  split.
  { rewrite (update_humidity_value t _ _ d v _ _ _ bH pH) by (assumption || lia).
    unfold next_humidity. now rewrite update_humidity_body. }
  split.
  { rewrite (update_moisture_value t _ _ v _ _ _ bM pM) by (assumption || lia).
    unfold next_moisture. now rewrite update_moisture_body. }
  do 3 (split; [assumption |]).
  split; [| split]; intros Hi.
  - apply next_temperature_not_below; assumption.
  - apply next_humidity_not_above; assumption.
  - apply next_moisture_not_above; assumption.
Qed.

Lemma positive_action_never_reverses_the_plant_witness :
  exists s, simulation (reduced Mamdani.evaluate) three_steps = Some s /\
    exists pT pH pM d v h xT xH xM,
      temperature_updated s !! 1%nat = Some pT /\
      humidity_updated s !! 1%nat = Some pH /\
      moisture_updated s !! 1%nat = Some pM /\
      dehumidifier_action s !! 1%nat = Some d /\
      ventilation_action s !! 1%nat = Some v /\
      heating_action s !! 1%nat = Some h /\
      temperature_updated s !! 2%nat = Some xT /\
      humidity_updated s !! 2%nat = Some xH /\
      moisture_updated s !! 2%nat = Some xM /\
      0 < h / 10 /\ 0 < (d + v) / 10 /\ 0 < v / 10 /\
      pT <= xT /\ xH <= pH /\ xM <= pM.
Proof.
  destruct (simulation (reduced Mamdani.evaluate) three_steps) as [s |] eqn:E;
    [| vm_compute in E; discriminate].
  assert (Hs := E). vm_compute in Hs. injection Hs as Hs. subst s.
  eexists. split; [reflexivity |].
  edestruct (positive_action_never_reverses_the_plant
               (reduced Mamdani.evaluate) three_steps _ 71 25 E)
    with (t := 2%nat)
    as (pT & pH & pM & d & v & h & xT & xH & xM &
        H1 & H2 & H3 & H4 & H5 & H6 & _ & _ & _ & H10 & H11 & H12 & HT & HH & HM);
    [forall_Q .. | cbn; lia |].
  change (2 - 1)%nat with 1%nat in H1, H2, H3, H4, H5, H6.
  assert (Ph : 0 < h / 10).
  { cbn in H6. injection H6 as <-. decide_Q. }
  assert (Pd : 0 < (d + v) / 10).
  { cbn in H4, H5. injection H4 as <-. injection H5 as <-. decide_Q. }
  assert (Pv : 0 < v / 10).
  { cbn in H5. injection H5 as <-. decide_Q. }
  exists pT, pH, pM, d, v, h, xT, xH, xM.
  do 9 (split; [assumption |]).
  split; [exact Ph |]. split; [exact Pd |]. split; [exact Pv |].
  split; [exact (HT Ph) |]. split; [exact (HH Pd) | exact (HM Pv)].
Defined.

(** *** Sensor readings depend on the samples up to the current index *)

Lemma take_drop_prefix {A : Type} (k m n : nat) (l : list A) :
  (m + k <= n)%nat -> take k (drop m l) = take k (drop m (take n l)).
Proof.
  intros H. rewrite !take_drop_commute, take_take.
  now replace (Nat.min (m + k) n) with (m + k)%nat by lia.
Qed.

Lemma slice_prefix (t : nat) (start : Z) (d d' : list Q) :
  length d = length d' ->
  take (t + 1) d = take (t + 1) d' ->
  Py.slice d start (Z.of_nat t + 1) = Py.slice d' start (Z.of_nat t + 1).
Proof.
  intros Hlen Htake. unfold Py.slice. rewrite <- Hlen.
  set (n := Z.of_nat (length d)).
  set (s := Py.clamp n start). set (e := Py.clamp n (Z.of_nat t + 1)).
  assert (He : (e <= Z.of_nat t + 1)%Z).
  { unfold e, Py.clamp.
    destruct (Z.of_nat t + 1 <? 0)%Z eqn:E; [apply Z.ltb_lt in E; lia | lia]. }
  destruct (Z.le_gt_cases s e) as [Hse | Hse].
  - assert (Hs : (0 <= s)%Z).
    { unfold s, Py.clamp. destruct (start <? 0)%Z eqn:E; [lia |].
      apply Z.ltb_ge in E. unfold n. lia. }
    rewrite (take_drop_prefix _ _ (t + 1) d) by lia.
    rewrite (take_drop_prefix _ _ (t + 1) d') by lia.
    now rewrite Htake.
  - replace (Z.to_nat (e - s)) with 0%nat by lia. reflexivity.
Qed.

Lemma smooth_data_prefix (t : nat) (w : Z) (d d' : list Q) :
  length d = length d' ->
  take (t + 1) d = take (t + 1) d' ->
  smooth_data (Z.of_nat t) d w = smooth_data (Z.of_nat t) d' w.
Proof.
  intros Hlen Htake. unfold smooth_data.
  now rewrite (slice_prefix t _ d d' Hlen Htake).
Qed.

Lemma singleton_of_length {A : Type} (l : list A) :
  length l = 1%nat -> exists x, l = [x].
Proof. destruct l as [| x [| y l]]; try discriminate. intros _. now exists x. Qed.

Lemma add_prefix (t : nat) (a a' n : list Q) :
  length a = length a' ->
  take (t + 1) a = take (t + 1) a' ->
  match Py.add a n, Py.add a' n with
  | Some c, Some c' => length c = length c' /\ take (t + 1) c = take (t + 1) c'
  | None, None => True
  | _, _ => False
  end.
Proof.
  intros Hlen Htake. unfold Py.add. rewrite <- Hlen.
  destruct (length a =? length n)%nat eqn:E.
  - apply Nat.eqb_eq in E. split.
    + rewrite !length_zip_with. lia.
    + rewrite !zip_with_take. now rewrite Htake.
  - destruct (Nat.eq_dec (length a) 1%nat) as [H1 | H1].
    + destruct (singleton_of_length a H1) as [x ->].
      destruct (singleton_of_length a') as [x' ->]; [lia |].
      replace (t + 1)%nat with (S t) in Htake by lia. cbn in Htake.
      injection Htake as ->. split; reflexivity.
    + assert (Ha : match a with [_] => False | _ => True end).
      { destruct a as [| x [| y a]]; cbn in H1; try exact I. lia. }
      assert (Ha' : match a' with [_] => False | _ => True end).
      { destruct a' as [| x [| y a']]; cbn in Hlen, H1; try exact I. lia. }
      destruct n as [| y [| z n]].
      * destruct a as [| x [| ? ?]], a' as [| x' [| ? ?]]; try contradiction; exact I.
      * assert (Some (map (fun x => x + y) a) = match a with
                  | [x] => Some (map (Qplus x) [y])
                  | _ => Some (map (fun x => x + y) a) end) as <-.
        { destruct a as [| x [| ? ?]]; try contradiction; reflexivity. }
        assert (Some (map (fun x => x + y) a') = match a' with
                  | [x] => Some (map (Qplus x) [y])
                  | _ => Some (map (fun x => x + y) a') end) as <-.
        { destruct a' as [| x [| ? ?]]; try contradiction; reflexivity. }
        split.
        -- rewrite !length_map. exact Hlen.
        -- change (map (fun x => x + y)) with (fmap (M := list) (fun x : Q => x + y)).
           rewrite <- !fmap_take. now rewrite Htake.
      * destruct a as [| x [| ? ?]], a' as [| x' [| ? ?]]; try contradiction; exact I.
Qed.

Lemma read_sensors_prefix (sig : Signals) (t : nat) (s s' : Series) :
  length (temperature_updated s) = length (temperature_updated s') ->
  length (humidity_updated s) = length (humidity_updated s') ->
  length (moisture_updated s) = length (moisture_updated s') ->
  take (t + 1) (temperature_updated s) = take (t + 1) (temperature_updated s') ->
  take (t + 1) (humidity_updated s) = take (t + 1) (humidity_updated s') ->
  take (t + 1) (moisture_updated s) = take (t + 1) (moisture_updated s') ->
  read_sensors sig t s = read_sensors sig t s'.
Proof.
  intros L1 L2 L3 T1 T2 T3. unfold read_sensors.
  assert (A1 := add_prefix t _ _ (temperature_noise sig) L1 T1).
  assert (A2 := add_prefix t _ _ (humidity_noise sig) L2 T2).
  assert (A3 := add_prefix t _ _ (moisture_noise sig) L3 T3).
  destruct (Py.add (temperature_updated s) (temperature_noise sig)) as [c1 |],
           (Py.add (temperature_updated s') (temperature_noise sig)) as [c1' |];
    try contradiction; [| reflexivity].
  destruct (Py.add (humidity_updated s) (humidity_noise sig)) as [c2 |],
           (Py.add (humidity_updated s') (humidity_noise sig)) as [c2' |];
    try contradiction; [| reflexivity].
  destruct (Py.add (moisture_updated s) (moisture_noise sig)) as [c3 |],
           (Py.add (moisture_updated s') (moisture_noise sig)) as [c3' |];
    try contradiction; [| reflexivity].
  destruct A1 as [X1 Y1], A2 as [X2 Y2], A3 as [X3 Y3].
  cbn [mbind option_bind].
  rewrite (smooth_data_prefix t 5 c1 c1' X1 Y1).
  rewrite (smooth_data_prefix t 5 c2 c2' X2 Y2).
  rewrite (smooth_data_prefix t 5 c3 c3' X3 Y3).
  reflexivity.
Qed.

Lemma take_same {A : Type} (n : nat) (l l' : list A) :
  (forall j, (j < n)%nat -> l !! j = l' !! j) -> take n l = take n l'.
Proof.
  intros H. apply list_eq. intros j.
  destruct (Nat.lt_ge_cases j n) as [Hj | Hj].
  - rewrite !lookup_take_lt by exact Hj. now apply H.
  - now rewrite !lookup_take_ge by exact Hj.
Qed.

(** A pass keeps the length of every array and records at [i] what the
    controllers return for the readings of that pass. *)
Lemma loop_body_record (engine : Engine) (sig : Signals) (i : nat) (s s' : Series) :
  loop_body engine sig i s = Some s' ->
  (length (temperature_updated s') = length (temperature_updated s) /\
   length (humidity_updated s') = length (humidity_updated s) /\
   length (moisture_updated s') = length (moisture_updated s)) /\
  controlled engine sig s' i.
Proof.
  unfold loop_body. intros H.
  apply bind_Some in H as (s1 & Hplant & H).
  apply bind_Some in H as (sensdata & Hsens & Hctl).
  apply plant_update_spec in Hplant as (_ & _ & _ & P0 & Ppos).
  apply decide_actions_spec in Hctl
    as (Ct & Ch & Cm & Kd & Kv & Kh & d' & v' & h' & Ld & Lv & Lh & Cd & Cv & Cha).
  split.
  - rewrite Ct, Ch, Cm.
    destruct (Nat.eq_dec i 0%nat) as [-> | Hi].
    + rewrite (P0 eq_refl). repeat split; reflexivity.
    + destruct Ppos as (pT & pH & pM & bT & bH & bM & d & v & h &
        _ & _ & _ & _ & _ & _ & _ & _ & _ & _ & _ & _ & -> & -> & ->); [lia |].
      rewrite !length_insert. repeat split; reflexivity.
  - exists sensdata. split.
    + rewrite <- Hsens. unfold read_sensors. now rewrite Ct, Ch, Cm.
    + rewrite Kd, Kv, Kh, Cd, Cv, Cha.
      rewrite !list_lookup_insert_eq by assumption. cbn. repeat split; reflexivity.
Qed.

(** X10.  Closed loop: in a completed run, at every index [t] the three
    recorded actions are exactly what the three controllers return for the
    smoothed readings of the final series at [t]; the driver recomputes at
    every step (its "keep the previous action" branch is never taken) and
    later passes change neither the readings nor the actions of [t]. *)
Theorem recorded_actions_are_controller_outputs
    (engine : Engine) (sig : Signals) (s : Series) :
  simulation engine sig = Some s ->
  forall t, (t < length (time sig))%nat -> controlled engine sig s t.
Proof.
  intros Hrun. unfold simulation, Py.for_range in Hrun.
  pose (Inv := fun (i : nat) (st : Series) =>
    forall t, (t < i)%nat -> controlled engine sig st t).
  apply (for_each_invariant Inv) in Hrun; [exact Hrun | | intros t Ht; lia].
  intros i st st' Hbody Hinv t Ht.
  destruct (loop_body_record engine sig i st st' Hbody) as [(L1 & L2 & L3) Hnew].
  apply loop_body_spec in Hbody as (Hframe & _ & _).
  destruct (Nat.eq_dec t i) as [-> | Hne]; [exact Hnew |].
  destruct (Hinv t) as (sd & Hsd & Hd & Hv & Hh); [lia |].
  exists sd.
  destruct (Hframe t Hne) as (_ & _ & _ & Fd & Fv & Fh).
  rewrite Fd, Fv, Fh. split; [| now repeat split].
  rewrite <- Hsd. apply read_sensors_prefix; try assumption;
    apply take_same; intros j Hj; apply Hframe; lia.
Qed.

Lemma recorded_actions_are_controller_outputs_witness :
  exists s, simulation (reduced Mamdani.evaluate) three_steps = Some s /\
            controlled (reduced Mamdani.evaluate) three_steps s 1.
Proof.
  eexists. split; [vm_compute; reflexivity |].
  apply recorded_actions_are_controller_outputs; [vm_compute; reflexivity | cbn; lia].
Defined.

(** ** The closing analysis: when it reports, and what *)

Lemma select_Some {A : Type} (mask : list bool) (l : list A) :
  length mask = length l ->
  Py.select mask l = Some (map snd (filter (fun p => fst p = true) (zip mask l))).
Proof. intros H. unfold Py.select. now rewrite H, Nat.eqb_refl. Qed.

Lemma select_inv {A : Type} (mask : list bool) (l sel : list A) :
  Py.select mask l = Some sel ->
  length mask = length l /\
  sel = map snd (filter (fun p => fst p = true) (zip mask l)).
Proof.
  unfold Py.select. destruct (length mask =? length l)%nat eqn:E; [| discriminate].
  apply Nat.eqb_eq in E. intros [= <-]. now split.
Qed.

Lemma selected_cons {A : Type} (b : bool) (mask : list bool) (x : A) (l : list A) :
  map snd (filter (fun p => fst p = true) (zip (b :: mask) (x :: l)))
  = if b then x :: map snd (filter (fun p => fst p = true) (zip mask l))
    else map snd (filter (fun p => fst p = true) (zip mask l)).
Proof.
  cbn. destruct b.
  - rewrite decide_True by reflexivity. reflexivity.
  - rewrite decide_False by discriminate. reflexivity.
Qed.

Lemma selected_length {A : Type} (mask : list bool) (l : list A) :
  (length (map snd (filter (fun p => fst p = true) (zip mask l))) <= length l)%nat.
Proof.
  revert l. induction mask as [| b mask IH]; intros [| x l]; try (cbn; lia).
  rewrite selected_cons. specialize (IH l). destruct b; cbn [length]; lia.
Qed.

Lemma selected_head (f : Q -> bool) (xs ts : list Q) :
  length xs = length ts ->
  head (map snd (filter (fun p => fst p = true) (zip (map f xs) ts)))
  = first_hit f xs ts.
Proof.
  revert ts. induction xs as [| x xs IH]; intros [| t ts] Hlen; try discriminate.
  - reflexivity.
  - change (map f (x :: xs)) with (f x :: map f xs). rewrite selected_cons.
    cbn [first_hit]. destruct (f x); [reflexivity |].
    apply IH. cbn in Hlen. lia.
Qed.

Lemma first_hit_defined (f : Q -> bool) (xs ts : list Q) :
  length xs = length ts ->
  Exists (fun x => f x = true) xs ->
  exists t, first_hit f xs ts = Some t /\ In t ts.
Proof.
  intros Hlen Hex. revert ts Hlen.
  induction Hex as [x xs Hx | x xs _ IH]; intros [| t ts] Hlen; try discriminate.
  - exists t. cbn. rewrite Hx. split; [reflexivity | now left].
  - cbn. destruct (f x).
    + exists t. split; [reflexivity | now left].
    + destruct (IH ts) as (t' & Ht' & Hin); [cbn in Hlen; lia |].
      exists t'. split; [exact Ht' | now right].
Qed.

Lemma index_zero_head {A : Type} (l : list A) : Py.index l 0 = head l.
Proof. destruct l; reflexivity. Qed.

(** The mask [time >= first] taken on [time] itself keeps the times at or
    after [first]. *)
Lemma select_later (first : Q) (ts : list Q) :
  Py.select (map (fun t => Qle_bool first t) ts) ts
  = Some (filter (fun t => Qle_bool first t = true) ts).
Proof.
  rewrite select_Some by apply length_map. f_equal.
  induction ts as [| t ts IH]; [reflexivity |].
  change (map (fun t0 => Qle_bool first t0) (t :: ts))
    with (Qle_bool first t :: map (fun t0 => Qle_bool first t0) ts).
  rewrite selected_cons, IH, filter_cons.
  destruct (Qle_bool first t).
  - now rewrite decide_True by reflexivity.
  - now rewrite decide_False by discriminate.
Qed.

Lemma later_contains (first : Q) (ts : list Q) :
  In first ts ->
  (0 < length (filter (fun t => Qle_bool first t = true) ts))%nat.
Proof.
  intros Hin.
  assert (H : first ∈ filter (fun t => Qle_bool first t = true) ts).
  { apply list_elem_of_filter. split.
    - apply Qle_bool_iff. apply Qle_refl.
    - now apply list_elem_of_In. }
  destruct (filter (fun t => Qle_bool first t = true) ts); [inversion H | cbn; lia].
Qed.

Lemma stability_defined (f : Q -> bool) (xs ts : list Q) (t0 : Q) :
  length xs = length ts ->
  first_hit f xs ts = Some t0 -> In t0 ts ->
  exists st,
    stability ts (map snd (filter (fun p => fst p = true) (zip (map f xs) ts)))
      = Some st.
Proof.
  intros Hlen Hhit Hin. unfold stability.
  rewrite index_zero_head, selected_head, Hhit by exact Hlen. cbn [mbind option_bind].
  rewrite select_later. cbn [mbind option_bind].
  assert (Hpos := later_contains t0 ts Hin).
  rewrite div_nonzero; [eexists; reflexivity |].
  unfold Qeq. cbn. lia.
Qed.

(** X11.  The analysis reports whenever each updated series has as many
    values as there are time points and enters its comfort band at least once;
    it never divides by zero.  Each reported rise time is the time of the
    first sample inside the band. *)
Theorem analysis_reports_first_entry (time : list Q) (s : Series) :
  length (temperature_updated s) = length time ->
  length (humidity_updated s) = length time ->
  length (moisture_updated s) = length time ->
  Exists (fun x => in_band_temperature x = true) (temperature_updated s) ->
  Exists (fun x => in_band_humidity x = true) (humidity_updated s) ->
  Exists (fun x => in_band_moisture x = true) (moisture_updated s) ->
  exists r,
    analysis time s = Some r /\
    first_hit in_band_temperature (temperature_updated s) time
      = Some (rise_time_temperature r) /\
    first_hit in_band_humidity (humidity_updated s) time
      = Some (rise_time_humidity r) /\
    first_hit in_band_moisture (moisture_updated s) time
      = Some (rise_time_moisture r).
Proof.
  intros L1 L2 L3 E1 E2 E3.
  destruct (first_hit_defined _ _ time L1 E1) as (t1 & H1 & I1).
  destruct (first_hit_defined _ _ time L2 E2) as (t2 & H2 & I2).
  destruct (first_hit_defined _ _ time L3 E3) as (t3 & H3 & I3).
  destruct (stability_defined _ _ _ _ L1 H1 I1) as [st Hst].
  destruct (stability_defined _ _ _ _ L2 H2 I2) as [sh Hsh].
  destruct (stability_defined _ _ _ _ L3 H3 I3) as [sm Hsm].
  unfold analysis.
  rewrite !select_Some by (rewrite length_map; assumption).
  cbn [mbind option_bind]. rewrite Hst, Hsh, Hsm. cbn [mbind option_bind].
  rewrite !index_zero_head, !selected_head by assumption.
  rewrite H1, H2, H3. cbn [mbind option_bind].
  eexists. split; [reflexivity |]. cbn. repeat split; reflexivity.
Qed.

Lemma analysis_reports_first_entry_witness :
  exists r,
    analysis [0; 1; 2]
      {| temperature_updated := [15; 19; 23]; humidity_updated := [70; 61; 55];
         moisture_updated := [25; 20; 18]; dehumidifier_action := [0; 0; 0];
         ventilation_action := [0; 0; 0]; heating_action := [0; 0; 0] |} = Some r /\
    rise_time_temperature r = 1 /\ rise_time_humidity r = 2 /\ rise_time_moisture r = 1.
Proof.
  destruct (analysis_reports_first_entry [0; 1; 2]
    {| temperature_updated := [15; 19; 23]; humidity_updated := [70; 61; 55];
       moisture_updated := [25; 20; 18]; dehumidifier_action := [0; 0; 0];
       ventilation_action := [0; 0; 0]; heating_action := [0; 0; 0] |})
    as (r & Hr & H1 & H2 & H3);
    try reflexivity.
  - apply List.Exists_cons_tl, List.Exists_cons_hd. reflexivity.
  - apply List.Exists_cons_tl, List.Exists_cons_tl, List.Exists_cons_hd. reflexivity.
  - apply List.Exists_cons_tl, List.Exists_cons_hd. reflexivity.
  - cbn in H1, H2, H3. injection H1 as H1. injection H2 as H2. injection H3 as H3.
    exists r. repeat split; [exact Hr | | |]; symmetry; assumption.
Defined.

Lemma filter_all {A : Type} (P : A -> Prop) `{forall x, Decision (P x)} (l : list A) :
  Forall P l -> filter P l = l.
Proof.
  induction 1 as [| x l Hx _ IH]; [reflexivity |].
  rewrite filter_cons, decide_True by exact Hx. now rewrite IH.
Qed.

Lemma filter_cons_length {A : Type} (P : A -> Prop) `{forall x, Decision (P x)}
    (x : A) (l : list A) :
  (length (filter P l) <= length (filter P (x :: l)))%nat.
Proof. rewrite filter_cons. destruct (decide (P x)); cbn; lia. Qed.

(** On increasing times, every selected time lies at or after the first
    selected one. *)
Lemma selected_le_later (f : Q -> bool) (xs ts : list Q) (t0 : Q) :
  StronglySorted Qle ts ->
  length xs = length ts ->
  first_hit f xs ts = Some t0 ->
  (length (map snd (filter (fun p => fst p = true) (zip (map f xs) ts)))
   <= length (filter (fun t => Qle_bool t0 t = true) ts))%nat.
Proof.
  intros Hsorted. revert xs.
  induction Hsorted as [| t ts Hs IH Hall]; intros [| x xs] Hlen Hhit; try discriminate.
  change (map f (x :: xs)) with (f x :: map f xs). rewrite selected_cons.
  cbn [first_hit] in Hhit. destruct (f x).
  - injection Hhit as <-.
    rewrite filter_cons, decide_True by (apply Qle_bool_iff, Qle_refl).
    rewrite (filter_all (fun t1 => Qle_bool t t1 = true) ts).
    + pose proof (selected_length (map f xs) ts). cbn [length]. lia.
    + eapply Forall_impl; [exact Hall |]. intros y Hy. now apply Qle_bool_iff.
  - etransitivity; [apply IH; [cbn in Hlen; lia | exact Hhit] |].
    apply filter_cons_length.
Qed.

Lemma div_inv (x y q : Q) : Py.div x y = Some q -> ~ y == 0 /\ q = x / y.
Proof.
  unfold Py.div. destruct (Qeq_bool y 0) eqn:E; [discriminate |].
  apply Qeq_bool_neq in E. intros [= <-]. now split.
Qed.

Lemma stability_fraction (f : Q -> bool) (xs ts : list Q) (st : Q) :
  StronglySorted Qle ts ->
  length xs = length ts ->
  stability ts (map snd (filter (fun p => fst p = true) (zip (map f xs) ts))) = Some st ->
  0 < st /\ st <= 1.
Proof.
  intros Hsorted Hlen Hst. unfold stability in Hst.
  apply bind_Some in Hst as (first & Hfirst & Hst).
  apply bind_Some in Hst as (later & Hlater & Hdiv).
  rewrite index_zero_head, selected_head in Hfirst by exact Hlen.
  rewrite select_later in Hlater. injection Hlater as <-.
  pose proof (selected_le_later f xs ts first Hsorted Hlen Hfirst) as Hle.
  rewrite <- (selected_head f xs ts Hlen) in Hfirst.
  set (rise := map snd (filter (fun p => fst p = true) (zip (map f xs) ts))) in *.
  assert (Hpos : (0 < length rise)%nat) by (destruct rise; [discriminate | cbn; lia]).
  apply div_inv in Hdiv as [Hnz ->].
  set (later := filter (fun t => Qle_bool first t = true) ts) in *.
  assert (Hb : 0 < inject_Z (Z.of_nat (length later))) by (unfold Qlt; cbn; lia).
  split.
  - apply Qlt_shift_div_l; [exact Hb |]. unfold Qlt. cbn. lia.
  - apply Qle_shift_div_r; [exact Hb |]. unfold Qle. cbn. lia.
Qed.

(** X12.  On a time vector in increasing order every stability the analysis
    reports is a fraction: positive and at most 1 (the in-band samples are
    among the samples at or after the rise time). *)
Theorem reported_stabilities_are_fractions (time : list Q) (s : Series) (r : Report) :
  StronglySorted Qle time ->
  analysis time s = Some r ->
  (0 < stability_temperature r /\ stability_temperature r <= 1) /\
  (0 < stability_humidity r /\ stability_humidity r <= 1) /\
  (0 < stability_moisture r /\ stability_moisture r <= 1).
Proof.
  intros Hsorted E. unfold analysis in E.
  apply bind_Some in E as (rise_t & Et & E).
  apply bind_Some in E as (rise_h & Eh & E).
  apply bind_Some in E as (rise_m & Em & E).
  apply bind_Some in E as (st & Est & E).
  apply bind_Some in E as (sh & Esh & E).
  apply bind_Some in E as (sm & Esm & E).
  apply bind_Some in E as (rt & _ & E).
  apply bind_Some in E as (rh & _ & E).
  apply bind_Some in E as (rm & _ & E).
  injection E as <-. cbn.
  apply select_inv in Et as [Lt ->]. apply select_inv in Eh as [Lh ->].
  apply select_inv in Em as [Lm ->].
  rewrite length_map in Lt, Lh, Lm.
  split; [| split].
  - exact (stability_fraction _ _ _ _ Hsorted Lt Est).
  - exact (stability_fraction _ _ _ _ Hsorted Lh Esh).
  - exact (stability_fraction _ _ _ _ Hsorted Lm Esm).
Qed.

Lemma reported_stabilities_are_fractions_witness :
  exists r,
    analysis [0; 1; 2] entering_bands = Some r /\
    0 < stability_temperature r /\ stability_temperature r <= 1.
Proof.
  eexists. split; [vm_compute; reflexivity |].
  refine (proj1 (reported_stabilities_are_fractions [0; 1; 2] entering_bands _ _ _)).
  - repeat (apply SSorted_cons; [| forall_Q]). apply SSorted_nil.
  - vm_compute. reflexivity.
Defined.

(** ** The time vector (Signal_Models.py) *)







(** ** The rain vector (Signal_Models.py) *)

(** What the loop of [generate_rain_vector] has established when pass [i]
    starts. *)
Lemma rain_loop (rand : nat -> Q) (p intensity : Q) (n : nat) :
  exists rv,
    Py.for_range n (fun i => rain_step p intensity (rand i) i) (replicate n 0, false)
      = Some (rv, raining rand p n) /\
    length rv = n /\
    forall j, (j < n)%nat ->
      rv !! j = Some (if wet rand p j then intensity else 0).
Proof.
  unfold Py.for_range.
  assert (G : forall m, (m <= n)%nat ->
    exists rv,
      Py.for_each (fun i => rain_step p intensity (rand i) i) (seq 0 m)
                  (replicate n 0, false) = Some (rv, raining rand p m) /\
      length rv = n /\
      (forall j, (j < m)%nat -> rv !! j = Some (if wet rand p j then intensity else 0)) /\
      (forall j, (m <= j < n)%nat -> rv !! j = Some 0)).
  { induction m as [| m IH]; intros Hm.
    - exists (replicate n 0). split; [reflexivity |].
      split; [apply length_replicate |]. split; [intros j Hj; lia |].
      intros j Hj. apply lookup_replicate_2. lia.
    - destruct IH as (rv & Hrun & Hlen & Hdone & Hrest); [lia |].
      rewrite seq_S, Nat.add_0_l.
      assert (Happ : forall (body : nat -> list Q * bool -> option (list Q * bool))
                            l1 l2 s0 s1,
                Py.for_each body l1 s0 = Some s1 ->
                Py.for_each body (l1 ++ l2) s0 = Py.for_each body l2 s1).
      { intros body l1. induction l1 as [| a l1 IH1]; intros l2 s0 s1 H.
        - cbn in H. injection H as <-. reflexivity.
        - cbn in H. apply bind_Some in H as (s2 & H2 & H). cbn. rewrite H2. cbn.
          now apply IH1. }
      rewrite (Happ _ _ _ _ _ Hrun). cbn [Py.for_each].
      unfold rain_step. cbn [raining]. unfold wet in *.
      destruct (raining rand p m) eqn:Er.
      + exists (<[m := intensity]> rv).
        unfold Py.set_item. rewrite (proj2 (Nat.ltb_lt m (length rv))) by lia.
        cbn [mbind option_bind]. split.
        { destruct (Py.Qlt_bool p (rand m)); reflexivity. }
        split; [now rewrite length_insert |]. split.
        * intros j Hj. destruct (Nat.eq_dec j m) as [-> | Hne].
          -- rewrite list_lookup_insert_eq by lia. now rewrite Er.
          -- rewrite list_lookup_insert_ne by congruence. apply Hdone. lia.
        * intros j Hj. rewrite list_lookup_insert_ne by lia. apply Hrest. lia.
      + destruct (Py.Qlt_bool (rand m) p) eqn:Eu.
        * exists (<[m := intensity]> rv).
          unfold Py.set_item. rewrite (proj2 (Nat.ltb_lt m (length rv))) by lia.
          cbn [mbind option_bind]. split; [reflexivity |].
          split; [now rewrite length_insert |]. split.
          -- intros j Hj. destruct (Nat.eq_dec j m) as [-> | Hne].
             ++ rewrite list_lookup_insert_eq by lia. now rewrite Er, Eu.
             ++ rewrite list_lookup_insert_ne by congruence. apply Hdone. lia.
          -- intros j Hj. rewrite list_lookup_insert_ne by lia. apply Hrest. lia.
        * exists rv. cbn [mbind option_bind]. split; [reflexivity |].
          split; [exact Hlen |]. split.
          -- intros j Hj. destruct (Nat.eq_dec j m) as [-> | Hne].
             ++ rewrite Er, Eu. cbn. apply Hrest. lia.
             ++ apply Hdone. lia.
          -- intros j Hj. apply Hrest. lia. }
  destruct (G n) as (rv & Hrun & Hlen & Hdone & _); [lia |].
  exists rv. now repeat split.
Qed.

(** X15.  [generate_rain_vector] always returns a vector with one entry per
    time point, each entry 0 or the intensity: entry [i] is the intensity
    exactly when it was raining when pass [i] started or the number drawn in
    pass [i] is below the rain probability; rain that has started goes on
    until a drawn number exceeds the probability. *)
Theorem generate_rain_vector_entries
    (rand : nat -> Q) (time : list Q) (p intensity : Q) :
  exists rv,
    generate_rain_vector rand time p intensity = Some rv /\
    length rv = length time /\
    forall i, (i < length time)%nat ->
      rv !! i = Some (if wet rand p i then intensity else 0).
Proof.
  destruct (rain_loop rand p intensity (length time)) as (rv & Hrun & Hlen & Hall).
  exists rv. unfold generate_rain_vector. rewrite Hrun. now repeat split.
Qed.

(** X16.  A rain spell never lasts a single step: when rain starts at index
    [i] (entry [i] is the non-zero intensity and entry [i-1], if any, is 0)
    and [i] is not the last index, entry [i+1] is the intensity as well. *)
Theorem rain_spells_last_two_steps
    (rand : nat -> Q) (time rv : list Q) (p intensity : Q) (i : nat) :
  generate_rain_vector rand time p intensity = Some rv ->
  ~ intensity == 0 ->
  (S i < length time)%nat ->
  rv !! i = Some intensity ->
  (i = 0%nat \/ rv !! (i - 1)%nat = Some 0) ->
  rv !! S i = Some intensity.
Proof.
  intros Hgen Hnz Hi Hwet Hdry.
  destruct (rain_loop rand p intensity (length time)) as (rv' & Hrun & _ & Hall).
  unfold generate_rain_vector in Hgen. rewrite Hrun in Hgen. injection Hgen as <-.
  assert (Hwi : wet rand p i = true).
  { rewrite Hall in Hwet by lia. injection Hwet as Hwet.
    destruct (wet rand p i); [reflexivity |].
    exfalso. apply Hnz. rewrite <- Hwet. reflexivity. }
  assert (Hri : raining rand p i = false).
  { destruct Hdry as [-> | Hprev]; [reflexivity |].
    destruct i as [| j]; [reflexivity |].
    replace (S j - 1)%nat with j in Hprev by lia.
    rewrite Hall in Hprev by lia. injection Hprev as Hprev.
    assert (Hwj : wet rand p j = false).
    { destruct (wet rand p j); [| reflexivity].
      exfalso. apply Hnz. rewrite Hprev. reflexivity. }
    unfold wet in Hwj. apply orb_false_iff in Hwj as [Hr Hu].
    cbn [raining]. rewrite Hr. exact Hu. }
  rewrite Hall by lia.
  assert (Hnext : raining rand p (S i) = true).
  { cbn [raining]. rewrite Hri. unfold wet in Hwi. rewrite Hri in Hwi. exact Hwi. }
  unfold wet. rewrite Hnext. reflexivity.
Qed.

Lemma rain_spells_last_two_steps_witness :
  exists rv,
    generate_rain_vector (fun i => if (i =? 1)%nat then 0.1 else 0.9) [0; 1; 2; 3] 0.2 1
      = Some rv /\
    rv !! 2%nat = Some 1.
Proof.
  eexists. split; [reflexivity |].
  apply (rain_spells_last_two_steps
           (fun i => if (i =? 1)%nat then 0.1 else 0.9) [0; 1; 2; 3] _ 0.2 1 1);
    [reflexivity | discriminate | cbn; lia | reflexivity | right; reflexivity].
Defined.

(** X17.  With draws in [0, 1): a rain probability of 0 or less gives a
    vector of zeros, and a rain probability of 1 or more gives the intensity
    at every index (rain starts in the first pass and never stops). *)
Theorem generate_rain_vector_extremes
    (rand : nat -> Q) (time : list Q) (p intensity : Q) :
  (forall i, 0 <= rand i /\ rand i < 1) ->
  (p <= 0 -> generate_rain_vector rand time p intensity
             = Some (replicate (length time) 0)) /\
  (1 <= p -> generate_rain_vector rand time p intensity
             = Some (replicate (length time) intensity)).
Proof.
  intros Hrand.
  destruct (rain_loop rand p intensity (length time)) as (rv & Hrun & Hlen & Hall).
  unfold generate_rain_vector. rewrite Hrun. cbn [mbind option_bind fst].
  split; intros Hp; f_equal; apply list_eq; intros j;
    destruct (Nat.lt_ge_cases j (length time)) as [Hj | Hj].
  - rewrite Hall, lookup_replicate_2 by lia. f_equal.
    assert (Hdry : forall k, raining rand p k = false).
    { induction k as [| k IH]; [reflexivity |]. cbn [raining]. rewrite IH.
      apply Qlt_bool_false. destruct (Hrand k). lra. }
    unfold wet. rewrite Hdry.
    rewrite (proj2 (Qlt_bool_false (rand j) p)); [reflexivity |].
    destruct (Hrand j). lra.
  - rewrite !lookup_ge_None_2; [reflexivity | rewrite length_replicate; lia | lia].
  - rewrite Hall, lookup_replicate_2 by lia. f_equal.
    unfold wet. rewrite (proj2 (Qlt_bool_true (rand j) p)); [| destruct (Hrand j); lra].
    now rewrite orb_true_r.
  - rewrite !lookup_ge_None_2; [reflexivity | rewrite length_replicate; lia | lia].
Qed.

Lemma generate_rain_vector_extremes_witness :
  generate_rain_vector (fun _ => 0.5) [0; 1; 2] 0 1 = Some [0; 0; 0] /\
  generate_rain_vector (fun _ => 0.5) [0; 1; 2] 1 1 = Some [1; 1; 1].
Proof.
  destruct (generate_rain_vector_extremes (fun _ => 0.5) [0; 1; 2] 0 1) as [H0 _];
    [intros _; split; [decide_Q | reflexivity] |].
  destruct (generate_rain_vector_extremes (fun _ => 0.5) [0; 1; 2] 1 1) as [_ H1];
    [intros _; split; [decide_Q | reflexivity] |].
  split; [apply H0; decide_Q | apply H1; decide_Q].
Defined.

(** ** Moisture with rain (Signal_Models.py) *)

Lemma Qmax_left (x y : Q) : y <= x -> Qmax x y = x.
Proof.
  intros H. unfold Qmax, GenericMinMax.gmax.
  destruct (x ?= y) eqn:E; try reflexivity.
  apply Qlt_alt in E. lra.
Qed.

(** The loop over the rain keeps the length of the cumulative array and any
    property that both branches preserve. *)
Lemma rain_effect_loop (P : list Q -> Prop) (base rain : list Q) (ri ds : Q) (n : nat) :
  length base = n -> (n <= length rain)%nat ->
  P base ->
  (forall i c r prev b,
     (1 <= i < n)%nat -> length c = n -> P c ->
     rain !! i = Some r -> c !! (i - 1)%nat = Some prev -> base !! i = Some b ->
     P (<[i := if Np.truthy r then prev + ri else Qmax b (prev - ds)]> c)) ->
  exists c,
    Py.for_each (rain_effect_step base rain ri ds) (seq 1 (n - 1)) base = Some c /\
    length c = n /\ P c.
Proof.
  intros Hb Hr HP Hstep.
  destruct (for_each_total (fun c => length c = n /\ P c)
              (rain_effect_step base rain ri ds) (n - 1) 1 base) as (c & Hc & Hl & Hp).
  - now split.
  - intros i c Hi [Hlen Hpc].
    destruct (lookup_defined rain i) as [r Hri]; [lia |].
    destruct (lookup_defined c (i - 1)) as [prev Hprev]; [lia |].
    destruct (lookup_defined base i) as [b Hbi]; [lia |].
    specialize (Hstep i c r prev b ltac:(lia) Hlen Hpc Hri Hprev Hbi).
    unfold rain_effect_step.
    rewrite (index_of_nat rain), Hri. cbn [mbind option_bind].
    rewrite (index_pred c), Hprev, (index_of_nat base), Hbi by lia.
    destruct (Np.truthy r); cbn [mbind option_bind];
      unfold Py.set_item; rewrite (proj2 (Nat.ltb_lt i (length c))) by lia;
      eexists; (split; [reflexivity |]); (split; [now rewrite length_insert | exact Hstep]).
  - exists c. now repeat split.
Qed.



(** X19.  Without rain (every entry of the rain vector that the loop reads
    is 0) and with a non-negative drying speed, the noisy moisture is the base
    plus the noise; the entry [rain[0]] is never read. *)
Theorem simulate_moisture_dry
    (noise time rain : list Q) (bm ri ds : Q) :
  length noise = length time -> (length time <= length rain)%nat -> 0 <= ds ->
  (forall i r, (1 <= i)%nat -> rain !! i = Some r -> r == 0) ->
  simulate_moisture noise time rain bm ri ds
    = Some (replicate (length time) bm, noise,
            zip_with Qplus (replicate (length time) bm) noise).
Proof.
  intros Hn Hr Hds Hdry.
  destruct (rain_effect_loop (fun c => c = replicate (length time) bm)
              (replicate (length time) bm) rain ri ds (length time))
    as (c & Hc & Hlen & ->).
  - apply length_replicate.
  - exact Hr.
  - reflexivity.
  - intros i c r prev b Hi Hlen -> Hri Hprev Hb.
    apply lookup_replicate in Hb as [-> _]. apply lookup_replicate in Hprev as [-> _].
    assert (Hr0 : Np.truthy r = false).
    { unfold Np.truthy. rewrite (proj2 (Qeq_bool_iff r 0)); [reflexivity |].
      apply (Hdry i); [lia | exact Hri]. }
    rewrite Hr0, Qmax_left by lra.
    apply list_insert_id, lookup_replicate_2. lia.
  - unfold simulate_moisture. rewrite Hc. cbn [mbind option_bind].
    unfold Py.add. rewrite length_replicate, Hn, Nat.eqb_refl. reflexivity.
Qed.

Lemma simulate_moisture_dry_witness :
  simulate_moisture [1; -1; 0] [0; 1; 2] [1; 0; 0] 25 0.5 0.2
    = Some ([25; 25; 25], [1; -1; 0], [25 + 1; 25 + -1; 25 + 0]).
Proof.
  apply (simulate_moisture_dry [1; -1; 0] [0; 1; 2] [1; 0; 0] 25 0.5 0.2);
    [reflexivity | cbn; lia | decide_Q |].
  intros [| [| [| i]]] r Hi Hr; try lia; cbn in Hr; try discriminate;
    injection Hr as <-; reflexivity.
Defined.

(** ** The controller configurations (Decision_Making.py) *)

(** X20.  The three rule bases are complete and unambiguous, and their
    variables are well-formed: every rule names only declared sets; the
    dehumidifier and heating rule bases hold exactly one rule for each set of
    their input, the ventilation rule base exactly one rule for each of the
    nine pairs of a humidity set and a moisture set; set names are unique
    within each variable; and the sets of every input variable overlap and
    reach both ends of its universe. *)
Theorem controller_configurations_well_formed :
  Forall rule_declared declared_rules /\
  (forall h, In h (names Dehumidifier.humidity) ->
     length (rules_for Dehumidifier.dehumidifier_ctrl [("humidity", h)]) = 1%nat) /\
  (forall t, In t (names Heating.temperature) ->
     length (rules_for Heating.heating_ctrl [("temperature", t)]) = 1%nat) /\
  (forall h m, In h (names Ventilation.humidity) -> In m (names Ventilation.moisture) ->
     length (rules_for Ventilation.ventilation_ctrl [("humidity", h); ("moisture", m)])
     = 1%nat) /\
  Forall (fun v => NoDup (names v)) declared_variables /\
  Forall (fun v => overlapping (terms v) /\ reaches_ends v) declared_inputs.
Proof.
  split; [| split; [| split; [| split; [| split]]]].
  - unfold declared_rules, Dehumidifier.dehumidifier_ctrl,
      Ventilation.ventilation_ctrl, Heating.heating_ctrl. cbn [app].
    repeat (apply List.Forall_cons; [vm_compute; repeat split; auto 8 |]).
    apply List.Forall_nil.
  - intros h Hh. cbn in Hh.
    destruct Hh as [<- | [<- | [<- | []]]]; vm_compute; reflexivity.
  - intros t Ht. cbn in Ht.
    destruct Ht as [<- | [<- | [<- | []]]]; vm_compute; reflexivity.
  - intros h m Hh Hm. cbn in Hh, Hm.
    destruct Hh as [<- | [<- | [<- | []]]];
      destruct Hm as [<- | [<- | [<- | []]]]; vm_compute; reflexivity.
  - unfold declared_variables.
    repeat (apply List.Forall_cons;
            [apply (bool_decide_unpack _); vm_compute; exact I |]).
    apply List.Forall_nil.
  - unfold declared_inputs.
    repeat (apply List.Forall_cons; [vm_compute; repeat split; congruence |]).
    apply List.Forall_nil.
Qed.

(** ** The driver's own code never fails *)

(** X21.  On signals with one value per time point, the loop of [main]
    raises only if a controller does: with an engine that returns a value for
    every reading, all passes complete (no index error, no division by zero in
    the plant updates or the smoothing) and the six arrays keep one entry per
    time point. *)
Theorem loop_fails_only_through_the_engine (engine : Engine) (sig : Signals) :
  well_formed sig ->
  (forall rules inputs output, is_Some (engine rules inputs output)) ->
  exists s, simulation engine sig = Some s /\ sized (length (time sig)) s.
Proof. exact (simulation_completes engine sig). Qed.

Lemma loop_fails_only_through_the_engine_witness :
  exists s, simulation idle three_steps = Some s /\ sized 3 s.
Proof.
  apply (loop_fails_only_through_the_engine idle three_steps).
  - repeat split.
  - intros rules inputs output. exists 0. reflexivity.
Defined.
